(** * reddit-summarizer: the summarize route, embedded and verified

    A shallow embedding of [src/app/api/summarize/route.ts].  The route
    answers a question by (1) a Google custom search for Reddit threads,
    (2) fetching each thread and summarising it with a language model,
    (3) filtering the summaries lexically, (4) synthesising one answer and
    (5) scoring it by the number of sources.

    Character model.  A JavaScript string is modelled as a Rocq [string]:
    a sequence of characters, each standing for the UTF-16 code unit of
    the same number, 0 to 255.  Strings with a code unit above 255 are not
    represented; in particular no string of the model holds a surrogate.
    [trim] removes every ECMAScript white-space and line-terminator
    character of that range (9 to 13, 32 and the no-break space 160).
    [toLowerCase] and the case-insensitive regular-expression flag change
    the letters A-Z and a-z only; the route uses them only to compare
    against pure ASCII literals (keywords, domain, URL shape), which no
    other character of the range lower-cases or canonicalises into.
    JavaScript numbers that the route computes with (counts, scores, HTTP
    codes) are integers and are modelled in [Z]. *)

From Stdlib Require Import ZArith QArith Ascii String Sorted Permutation.
From Stdlib Require Import Numbers.DecimalString.
From stdpp Require Import base tactics option list strings.

Local Open Scope Z_scope.

(** ** JavaScript string primitives used by the route *)

Module Js.

(** [c] lies in the closed character range [lo-hi]. *)
Definition inRange (lo hi c : ascii) : bool :=
  (nat_of_ascii lo <=? nat_of_ascii c)%nat && (nat_of_ascii c <=? nat_of_ascii hi)%nat.

Definition lowerChar (c : ascii) : ascii :=
  if inRange "A" "Z" c then ascii_of_nat (nat_of_ascii c + 32) else c.

Definition upperChar (c : ascii) : ascii :=
  if inRange "a" "z" c then ascii_of_nat (nat_of_ascii c - 32) else c.

(** [String.prototype.toLowerCase] *)
Fixpoint toLowerCase (s : string) : string :=
  match s with
  | EmptyString => EmptyString
  | String c s' => String (lowerChar c) (toLowerCase s')
  end.

(** [s.startsWith(p)] *)
Fixpoint startsWith (p s : string) : bool :=
  match p, s with
  | EmptyString, _ => true
  | String a p', String b s' => if Ascii.eqb a b then startsWith p' s' else false
  | String _ _, EmptyString => false
  end.

(** [s.includes(kw)]: some position of [s] starts with [kw]. *)
Fixpoint includes (s kw : string) : bool :=
  startsWith kw s ||
  match s with
  | EmptyString => false
  | String _ s' => includes s' kw
  end.

(** White space removed by [trim]: the WhiteSpace and LineTerminator
    characters of ECMAScript below 256, which are tab, line feed, vertical
    tab, form feed, carriage return (9 to 13), space (32) and no-break
    space (160).  The remaining ones (U+1680, U+2000 to U+200A, U+2028,
    U+2029, U+202F, U+205F, U+3000, U+FEFF) lie above 255. *)
Definition isSpace (c : ascii) : bool :=
  inRange "009" "013" c || Ascii.eqb c " " || Ascii.eqb c "160".

Fixpoint trimStart (s : string) : string :=
  match s with
  | EmptyString => EmptyString
  | String c s' => if isSpace c then trimStart s' else s
  end.

(** Drops trailing white space: a character is kept when something
    non-blank remains at or after it. *)
Fixpoint trimEnd (s : string) : string :=
  match s with
  | EmptyString => EmptyString
  | String c s' =>
      match trimEnd s' with
      | EmptyString => if isSpace c then EmptyString else String c EmptyString
      | t => String c t
      end
  end.

(** [String.prototype.trim] *)
Definition trim (s : string) : string := trimEnd (trimStart s).

(** Truthiness of a string: only the empty string is falsy. *)
Definition truthy (s : string) : bool :=
  match s with EmptyString => false | String _ _ => true end.

(** [v || d] where [v] is a string or [undefined]. *)
Definition orElse (v : option string) (d : string) : string :=
  match v with
  | Some s => if truthy s then s else d
  | None => d
  end.

(** [`${n}`] for an integer. *)
Definition numToString (n : Z) : string :=
  NilZero.string_of_int (Z.to_int n).

(** [arr.join(sep)] *)
Fixpoint join (sep : string) (l : list string) : string :=
  match l with
  | [] => ""
  | [x] => x
  | x :: rest => x +:+ sep +:+ join sep rest
  end.

(** The double-quote character, for template literals that embed it. *)
Definition dquote : string := String (ascii_of_nat 34) EmptyString.

(** Line feed, [\n] in a template literal. *)
Definition nl : string := String (ascii_of_nat 10) EmptyString.

End Js.

(** ** Constants *)

Definition MAX_GOOGLE_RESULTS_TO_CHECK : Z := 10.
Definition MAX_REDDIT_POSTS_TO_PROCESS : nat := 5.
Definition MAX_COMMENTS_PER_POST : nat := 3.
Definition GROQ_MODEL : string := "llama3-70b-8192".

Definition IRRELEVANT_SUMMARY_KEYWORDS : list string :=
  [ "does not provide any information";
    "is not about";
    "no relevant information";
    "unrelated to the question";
    "has nothing to do with";
    "not relevant to the question";
    "irrelevant to the question" ].

(** ** Helper functions *)

(** [arr.some(p)] *)
Definition some {A} (p : A -> bool) (l : list A) : bool := existsb p l.

Definition isSummaryRelevant (summary : string) : bool :=
  let lowerCaseSummary := Js.toLowerCase summary in
  negb (some (fun keyword => Js.includes lowerCaseSummary keyword)
             IRRELEVANT_SUMMARY_KEYWORDS).

Definition calculateConfidence (relevantSourcesCount : Z) : Z :=
  let score := 50 + relevantSourcesCount * 10 in
  Z.min score 95.

(** ** The regular-expression matcher behind [String.prototype.match]

    A backtracking matcher for the fragment of JavaScript regular
    expressions the route uses: literal runs, character classes, greedy
    bounded repetition of a class, alternation, capturing groups and the
    end-of-input assertion.  The continuation [k] receives the rest of the
    input and the captures so far; alternatives are tried left to right and
    a greedy repetition gives characters back one at a time. *)

Module Regex.

Inductive classItem :=
| CChar (c : ascii)
| CRange (lo hi : ascii).

Inductive regex :=
| RStr (lit : string)
| RSet (invert : bool) (items : list classItem)
| RRepeat (invert : bool) (items : list classItem) (min : nat) (max : option nat)
| RSeq (r1 r2 : regex)
| RAlt (r1 r2 : regex)
| RGroup (n : nat) (r : regex)
| REnd.

(** Captures, most recent first. *)
Definition captures := list (nat * string).

Fixpoint capture (n : nat) (caps : captures) : option string :=
  match caps with
  | [] => None
  | (m, s) :: rest => if (m =? n)%nat then Some s else capture n rest
  end.

Definition itemMem (c : ascii) (it : classItem) : bool :=
  match it with
  | CChar d => Ascii.eqb d c
  | CRange lo hi => Js.inRange lo hi c
  end.

Section Flags.
(** The [i] flag. *)
Variable ignoreCase : bool.

(** Two characters match when their canonical (upper-case) forms do. *)
Definition charEq (a b : ascii) : bool :=
  if ignoreCase then Ascii.eqb (Js.upperChar a) (Js.upperChar b)
  else Ascii.eqb a b.

Definition classMem (items : list classItem) (c : ascii) : bool :=
  existsb (itemMem c) items ||
  (ignoreCase &&
    (existsb (itemMem (Js.lowerChar c)) items
     || existsb (itemMem (Js.upperChar c)) items)).

Definition setMatch (invert : bool) (items : list classItem) (c : ascii) : bool :=
  xorb invert (classMem items c).

(** Matches the literal run at the head of [s]; returns the rest. *)
Fixpoint litMatch (lit s : string) : option string :=
  match lit, s with
  | EmptyString, _ => Some s
  | String a lit', String b s' => if charEq a b then litMatch lit' s' else None
  | String _ _, EmptyString => None
  end.

(** Greedy [{min,max}] over a one-character test. *)
Fixpoint repeatMatch {R} (p : ascii -> bool) (min : nat) (max : option nat)
    (s : string) (k : string -> option R) : option R :=
  let stop := match min with O => k s | S _ => None end in
  match s with
  | String c s' =>
      if p c && match max with Some O => false | _ => true end then
        match repeatMatch p (Nat.pred min) (Nat.pred <$> max) s' k with
        | Some r => Some r
        | None => stop
        end
      else stop
  | EmptyString => stop
  end.

(** The part of [s] consumed when [rest] is what remains of it. *)
Definition consumed (s rest : string) : string :=
  String.substring 0 (String.length s - String.length rest) s.

Fixpoint run (r : regex) (s : string) (caps : captures)
    (k : string -> captures -> option captures) : option captures :=
  match r with
  | RStr lit =>
      match litMatch lit s with
      | Some s' => k s' caps
      | None => None
      end
  | RSet invert items =>
      match s with
      | String c s' => if setMatch invert items c then k s' caps else None
      | EmptyString => None
      end
  | RRepeat invert items min max =>
      repeatMatch (setMatch invert items) min max s (fun s' => k s' caps)
  | RSeq r1 r2 => run r1 s caps (fun s' caps' => run r2 s' caps' k)
  | RAlt r1 r2 =>
      match run r1 s caps k with
      | Some res => Some res
      | None => run r2 s caps k
      end
  | RGroup n r1 => run r1 s caps (fun s' caps' => k s' ((n, consumed s s') :: caps'))
  | REnd =>
      match s with
      | EmptyString => k s caps
      | String _ _ => None
      end
  end.

(** [RegExp.prototype.exec] without the [g] flag: the leftmost start
    position at which the pattern matches. *)
Fixpoint exec (r : regex) (s : string) : option captures :=
  match run r s [] (fun _ caps => Some caps) with
  | Some caps => Some caps
  | None =>
      match s with
      | EmptyString => None
      | String _ s' => exec r s'
      end
  end.
End Flags.

End Regex.

Import Regex.

(** [[a-z0-9]] *)
Definition alnumClass : list classItem := [CRange "a" "z"; CRange "0" "9"].

(** [/reddit\.com\/r\/[^\/]+\/comments\/([a-z0-9]{6,10})(\/|$)/i] *)
Definition submissionIdPattern : regex :=
  RSeq (RStr "reddit.com/r/")
  (RSeq (RRepeat true [CChar "/"] 1 None)
  (RSeq (RStr "/comments/")
  (RSeq (RGroup 1 (RRepeat false alnumClass 6 (Some 10%nat)))
        (RGroup 2 (RAlt (RStr "/") REnd))))).

Definition extractRedditSubmissionId (url : string) : option string :=
  match exec true submissionIdPattern url with
  | Some caps => capture 1 caps
  | None => None
  end.

(** ** Arrays *)

Module Arr.

(** Insertion of [x] in front of the first element it does not have to
    follow: [cmp x y <= 0] means [x] may stay before [y]. *)
Fixpoint insert {A} (cmp : A -> A -> Z) (x : A) (l : list A) : list A :=
  match l with
  | [] => [x]
  | y :: l' => if cmp x y <=? 0 then x :: l else y :: insert cmp x l'
  end.

(** [Array.prototype.sort(cmp)].  The built-in sort is stable: elements
    the comparator calls equal keep their input order.  It is modelled as
    insertion sort from the right, which is stable; a negative [cmp a b]
    puts [a] first. *)
Fixpoint sort {A} (cmp : A -> A -> Z) (l : list A) : list A :=
  match l with
  | [] => []
  | x :: l' => insert cmp x (sort cmp l')
  end.

(** [arr.slice(0, n)] *)
Definition slice0 {A} (n : nat) (l : list A) : list A := take n l.

(** A [Set] in insertion order: [add] appends a value that is not there. *)
Definition has (x : string) (l : list string) : bool := existsb (String.eqb x) l.
Definition add (x : string) (l : list string) : list string :=
  if has x l then l else l ++ [x].

End Arr.

(** ** Data exchanged with the outside *)

(** A thrown value.  [isError] is [error instanceof Error]; [statusCode]
    and [status] hold the numeric property of that name when the thrown
    object has one (the forum client reports HTTP codes in [statusCode],
    the model client in [status]). *)
Record JsError := {
  isError : bool;
  isSyntaxError : bool;
  message : string;
  statusCode : option Z;
  status : option Z
}.

Record Comment := { body : string; score : option Z }.

(** A fetched submission; [comments] is [None] when the field is missing
    or not an array. *)
Record Submission := {
  title : string;
  selftext : option string;
  permalink : option string;
  comments : option (list Comment)
}.

(** One search result; [link] is [None] for a missing or falsy item/link. *)
Record SearchItem := { link : option string }.

Record GoogleData := {
  error_message : option string;
  items : option (list SearchItem)
}.

(** The parameters that make up [searchUrl]. *)
Record SearchRequest := { key : string; cx : string; q : string; num : Z }.

Inductive SearchOutcome :=
| SearchThrows (e : JsError)
| SearchReply (ok : bool) (httpStatus : Z) (data : GoogleData).

Record ChatRequest := {
  model : string;
  content : string;
  max_tokens : Z;
  temperature : Q
}.

(** Result of [groq.chat.completions.create]: a thrown error, or the value
    of [choices[0]?.message?.content]. *)
Definition ChatOutcome : Type := JsError + option string.
Definition FetchOutcome : Type := JsError + Submission.

(** [await request.json()] and the destructured [question]; [None] stands
    for a question that is missing or not a string. *)
Inductive RequestBody :=
| BodyThrows (e : JsError)
| BodyJson (question : option string).

Record Summary := { summary : string; source_link : string }.

Inductive Body :=
| ErrorBody (error : string)
| AnswerBody (finalSummary : string) (sources : list string) (confidenceScore : Z).

(** [NextResponse.json(body, { status })]; the status defaults to 200. *)
Record Response := { httpCode : Z; payload : Body }.
Definition json (b : Body) : Response := {| httpCode := 200; payload := b |}.
Definition jsonStatus (b : Body) (code : Z) : Response := {| httpCode := code; payload := b |}.

(** Calls to the outside, in the order the route makes them, each with
    what it returned. *)
Inductive Event :=
| EvSearch (req : SearchRequest) (res : SearchOutcome)
| EvFetch (submissionId : string) (res : FetchOutcome)
| EvSummarize (req : ChatRequest) (res : ChatOutcome)
| EvSynthesize (req : ChatRequest) (res : ChatOutcome).

(** Process environment read at module load. *)
Record Config := {
  GOOGLE_API_KEY : option string;
  GOOGLE_CSE_ID : option string
}.

(** ** Pure parts of the route *)

(** [(b.score || 0) - (a.score || 0)] *)
Definition scoreOr0 (c : Comment) : Z := default 0 (score c).
Definition byScoreDesc (a b : Comment) : Z := scoreOr0 b - scoreOr0 a.

Definition topCommentsOf (cs : list Comment) : list Comment :=
  Arr.slice0 MAX_COMMENTS_PER_POST (Arr.sort byScoreDesc cs).

Definition postLinkOf (submission : Submission) : string :=
  "https://reddit.com" +:+ Js.orElse (permalink submission) "".

Definition commentsTextOf (topComments : list Comment) : string :=
  Js.join Js.nl
    (imap (fun index comment =>
             Js.numToString (Z.of_nat index + 1) +:+ ". " +:+ body comment)
          topComments).

Definition summaryPromptOf (question : string) (submission : Submission)
    (commentsText : string) : string :=
  "Summarize the key advice or information from the following Reddit thread regarding the question "
  +:+ Js.dquote +:+ question +:+ Js.dquote
  +:+ ". Focus ONLY on the aspects directly answering the question. If the thread is irrelevant to the question, please state that clearly (e.g., 'This thread is not relevant...')."
  +:+ Js.nl +:+ Js.nl +:+ "Post Title: " +:+ title submission
  +:+ Js.nl +:+ "Post Body: " +:+ Js.orElse (selftext submission) "N/A"
  +:+ Js.nl +:+ Js.nl +:+ "Top Comments:" +:+ Js.nl +:+ commentsText
  +:+ Js.nl +:+ Js.nl +:+ "Summary:".

Definition summaryRequestOf (question : string) (submission : Submission)
    (topComments : list Comment) : ChatRequest :=
  {| model := GROQ_MODEL;
     content := summaryPromptOf question submission (commentsTextOf topComments);
     max_tokens := 200;
     temperature := 0.4 |}.

Definition combinedContentOf (relevantSummaries : list Summary) : string :=
  Js.join (Js.nl +:+ Js.nl +:+ "---" +:+ Js.nl +:+ Js.nl)
    (imap (fun i s =>
             "Relevant Summary From Source " +:+ Js.numToString (Z.of_nat i + 1)
             +:+ " (" +:+ source_link s +:+ "):" +:+ Js.nl +:+ summary s)
          relevantSummaries).

Definition synthesisPromptOf (question : string) (combinedContent : string) : string :=
  "Act as a helpful assistant answering a user's question based *only* on information gathered from relevant Reddit discussions found via Google. The user asked: "
  +:+ Js.dquote +:+ question +:+ Js.dquote +:+ Js.nl +:+ Js.nl
  +:+ "Here are summaries extracted from those discussions:" +:+ Js.nl
  +:+ combinedContent +:+ Js.nl +:+ Js.nl
  +:+ "Synthesize these summaries into a single, cohesive, and direct answer to the user's question. Structure the answer logically using markdown (like ## Headers, **bolding**, and bullet points *"
  +:+ ") for clear readability. " +:+ Js.nl +:+ Js.nl
  +:+ "If multiple apps, tools, or methods are recommended across the summaries, group them logically and briefly describe each, highlighting key features or benefits mentioned in the summaries. "
  +:+ Js.nl +:+ Js.nl
  +:+ "Focus on providing a helpful and informative response. Do *not* mention the process of summarizing or refer to the source summaries directly in the final output (e.g., avoid phrases like 'Based on the summaries...'). Start the answer directly."
  +:+ Js.nl +:+ Js.nl +:+ "Final Answer (in Markdown):".

Definition synthesisRequestOf (question : string) (relevantSummaries : list Summary)
    : ChatRequest :=
  {| model := GROQ_MODEL;
     content := synthesisPromptOf question (combinedContentOf relevantSummaries);
     max_tokens := 600;
     temperature := 0.6 |}.

(** The identifier a search result contributes, if any: the guards of the
    candidate loop ([item && item.link && item.link.includes('reddit.com')],
    then [if (submissionId)]). *)
Definition candidateId (item : SearchItem) : option string :=
  match link item with
  | Some l =>
      if Js.truthy l && Js.includes l "reddit.com" then
        match extractRedditSubmissionId l with
        | Some submissionId =>
            if Js.truthy submissionId then Some submissionId else None
        | None => None
        end
      else None
  | None => None
  end.

(** The candidate loop of step 1: adds the identifier of each Reddit link
    to [foundIds] and stops once enough are collected. *)
Fixpoint collectIds (items : list SearchItem) (foundIds : list string) : list string :=
  match items with
  | [] => foundIds
  | item :: rest =>
      let foundIds' :=
        match candidateId item with
        | Some submissionId => Arr.add submissionId foundIds
        | None => foundIds
        end in
      if (MAX_REDDIT_POSTS_TO_PROCESS <=? length foundIds')%nat then foundIds'
      else collectIds rest foundIds'
  end.

(** [redditSubmissionIds] after the search reply has been read. *)
Definition submissionIdsOf (data : GoogleData) : list string :=
  match items data with
  | Some (item :: rest) => collectIds (item :: rest) []
  | _ => []
  end.

Definition filterRelevant (initialSummaries : list Summary) : list Summary :=
  List.filter (fun s => isSummaryRelevant (summary s)) initialSummaries.

(** ** The route handler

    The outside world (Google, Reddit, Groq) is a state [World] that each
    call may read and change.  The handler runs in a state monad over the
    world and the trace of calls made so far. *)

Record Services (World : Type) := {
  googleSearch : SearchRequest -> World -> SearchOutcome * World;
  getSubmission : string -> World -> FetchOutcome * World;
  chatCreate : ChatRequest -> World -> ChatOutcome * World
}.
Arguments googleSearch {World}.
Arguments getSubmission {World}.
Arguments chatCreate {World}.

Record State (World : Type) := { world : World; trace : list Event }.
Arguments world {World}.
Arguments trace {World}.

Definition M (World A : Type) : Type := State World -> A * State World.

Definition ret {World A} (a : A) : M World A := fun st => (a, st).
Definition bind {World A B} (m : M World A) (f : A -> M World B) : M World B :=
  fun st => let (a, st') := m st in f a st'.

Notation "'let*' x ':=' m 'in' k" := (bind m (fun x => k))
  (at level 10, x name, m at level 100, k at level 200).

(** Performs one outside call and records it. *)
Definition call {World A} (op : World -> A * World) (ev : A -> Event) : M World A :=
  fun st =>
    let (a, w) := op (world st) in
    (a, {| world := w; trace := trace st ++ [ev a] |}).

Section Route.
Context {World : Type}.
Variable svc : Services World.
Variable cfg : Config.

(** The [catch] of the candidate loop: a 401 in [statusCode] ends the
    request, anything else is logged and the loop goes on. *)
Definition loopCatch (error : JsError) (initialSummaries : list Summary)
    : M World (Response + list Summary) :=
  if bool_decide (statusCode error = Some 401) then
    ret (inl (jsonStatus (ErrorBody "Reddit authentication failed.") 401))
  else
    ret (inr initialSummaries).

(** One iteration of the loop over [redditSubmissionIds].  [inl] is a
    [return] from the handler, [inr] the summaries after the iteration. *)
Definition loopBody (question submissionId : string)
    (initialSummaries : list Summary) : M World (Response + list Summary) :=
  let* fetched := call (getSubmission svc submissionId) (EvFetch submissionId) in
  match fetched with
  | inl error => loopCatch error initialSummaries
  | inr submission =>
      let postLink := postLinkOf submission in
      match comments submission with
      | None | Some [] => ret (inr initialSummaries)
      | Some cs =>
          let topComments := topCommentsOf cs in
          if (length topComments =? 0)%nat then ret (inr initialSummaries)
          else
            let req := summaryRequestOf question submission topComments in
            let* summaryCompletion := call (chatCreate svc req) (EvSummarize req) in
            match summaryCompletion with
            | inl error => loopCatch error initialSummaries
            | inr content =>
                match Js.trim <$> content with
                | Some summaryText =>
                    if Js.truthy summaryText then
                      ret (inr (initialSummaries ++
                                [{| summary := summaryText; source_link := postLink |}]))
                    else ret (inr initialSummaries)
                | None => ret (inr initialSummaries)
                end
            end
      end
  end.

(** Step 2: fetch Reddit content and generate the initial summaries. *)
Fixpoint fetchAndSummarize (question : string) (redditSubmissionIds : list string)
    (initialSummaries : list Summary) : M World (Response + list Summary) :=
  match redditSubmissionIds with
  | [] => ret (inr initialSummaries)
  | submissionId :: rest =>
      let* r := loopBody question submissionId initialSummaries in
      match r with
      | inl response => ret (inl response)
      | inr initialSummaries' => fetchAndSummarize question rest initialSummaries'
      end
  end.

(** Step 1: the Google custom search.  [inl] is the error response of
    its [catch], [inr] the candidate identifiers.  The route builds the
    URL with [encodeURIComponent(searchQuery)], which throws only on an
    unpaired surrogate; a string of this model holds none, so the URL is
    always built and the call always made. *)
Definition googleCustomSearch (question apiKey cseId : string)
    : M World (Response + list string) :=
  let searchQuery := question +:+ " reddit" in
  let req := {| key := apiKey; cx := cseId; q := searchQuery;
                num := MAX_GOOGLE_RESULTS_TO_CHECK |} in
  let* r := call (googleSearch svc req) (EvSearch req) in
  match r with
  | SearchThrows error =>
      let errorMessage :=
        if isError error then message error else "Failed to perform Google search." in
      ret (inl (jsonStatus (ErrorBody errorMessage) 500))
  | SearchReply ok httpStatus googleData =>
      if negb ok then
        let errorMessage :=
          Js.orElse (error_message googleData)
            ("Google Search API failed with status " +:+ Js.numToString httpStatus) in
        ret (inl (jsonStatus (ErrorBody errorMessage) 500))
      else ret (inr (submissionIdsOf googleData))
  end.

(** Step 4: the final synthesised summary. *)
Definition synthesize (question : string) (relevantSummaries : list Summary)
    : M World string :=
  let req := synthesisRequestOf question relevantSummaries in
  let* finalCompletion := call (chatCreate svc req) (EvSynthesize req) in
  match finalCompletion with
  | inl error => ret "Error occurred while synthesizing the final answer."
  | inr content =>
      ret (Js.orElse (Js.trim <$> content) "Could not synthesize a final answer.")
  end.

(** The outermost [catch]. *)
Definition outerCatch (error : JsError) : Response :=
  if isSyntaxError error then
    jsonStatus (ErrorBody "Invalid JSON in request body.") 400
  else
    let code :=
      match status error with
      | Some n => n
      | None => default 500 (statusCode error)
      end in
    let outerErrorMessage :=
      if isError error then message error else "Failed to process request." in
    jsonStatus (ErrorBody outerErrorMessage) code.

(** Steps 3 to 6, once the initial summaries are known. *)
Definition answerFrom (question : string) (initialSummaries : list Summary)
    : M World Response :=
  let relevantSummaries := filterRelevant initialSummaries in
  if (length relevantSummaries =? 0)%nat then
    ret (json (AnswerBody
      "Found some Reddit discussions via Google, but couldn't extract direct answers."
      [] 15))
  else
    let relevantSources := map source_link relevantSummaries in
    let* finalSummaryText := synthesize question relevantSummaries in
    let confidenceScore := calculateConfidence (Z.of_nat (length relevantSources)) in
    ret (json (AnswerBody finalSummaryText relevantSources confidenceScore)).

Definition POST (request : RequestBody) : M World Response :=
  match request with
  | BodyThrows error => ret (outerCatch error)
  | BodyJson q =>
      match q with
      | None | Some EmptyString =>
          ret (jsonStatus (ErrorBody "Invalid question provided") 400)
      | Some question =>
          match GOOGLE_API_KEY cfg, GOOGLE_CSE_ID cfg with
          | Some apiKey, Some cseId =>
              if Js.truthy apiKey && Js.truthy cseId then
                let* found := googleCustomSearch question apiKey cseId in
                match found with
                | inl response => ret response
                | inr redditSubmissionIds =>
                    if (length redditSubmissionIds =? 0)%nat then
                      ret (json (AnswerBody
                        "Could not find relevant Reddit discussions via Google for this question."
                        [] 0))
                    else
                      let* r := fetchAndSummarize question redditSubmissionIds [] in
                      match r with
                      | inl response => ret response
                      | inr initialSummaries => answerFrom question initialSummaries
                      end
                end
              else ret (jsonStatus (ErrorBody "Server configuration error.") 500)
          | _, _ => ret (jsonStatus (ErrorBody "Server configuration error.") 500)
          end
      end
  end.

End Route.

(** ** A scripted outside world

    Services that answer from fixed tables, used to run the handler on
    concrete requests. *)

Module Demo.

Definition scripted (search : SearchOutcome) (fetch : string -> FetchOutcome)
    (chat : ChatRequest -> ChatOutcome) : Services unit :=
  {| googleSearch := fun _ w => (search, w);
     getSubmission := fun submissionId w => (fetch submissionId, w);
     chatCreate := fun req w => (chat req, w) |}.

Definition cfg : Config :=
  {| GOOGLE_API_KEY := Some "key"; GOOGLE_CSE_ID := Some "cse" |}.

Definition st0 : State unit := {| world := tt; trace := [] |}.

Definition request : RequestBody := BodyJson (Some "how to learn rust").

Definition results : list SearchItem :=
  [ {| link := Some "https://www.reddit.com/r/rust/comments/abc123/learning_rust/" |};
    {| link := Some "https://example.com/blog/rust" |};
    {| link := Some "https://www.reddit.com/r/programming/comments/def4567/rust_vs_go/" |};
    {| link := Some "https://old.reddit.com/r/rust/comments/abc123/" |};
    {| link := None |};
    {| link := Some "https://www.reddit.com/r/cpp/comments/ghi89012" |} ].

Definition found : SearchOutcome :=
  SearchReply true 200 {| error_message := None; items := Some results |}.

Definition noThreads : GoogleData :=
  {| error_message := None;
     items := Some [ {| link := Some "https://example.com/blog/rust" |};
                     {| link := Some "https://www.reddit.com/r/rust/" |} ] |}.

Definition nothingFound : SearchOutcome := SearchReply true 200 noThreads.

Definition fourComments : list Comment :=
  [ {| body := "first"; score := Some 3 |};
    {| body := "second"; score := Some 7 |};
    {| body := "third"; score := None |};
    {| body := "fourth"; score := Some 7 |} ].

Definition thread (name : string) : Submission :=
  {| title := "Thread " +:+ name;
     selftext := Some "";
     permalink := Some ("/r/x/comments/" +:+ name +:+ "/");
     comments := Some fourComments |}.

Definition failure (code : option Z) (st : option Z) : JsError :=
  {| isError := true; isSyntaxError := false; message := "request failed";
     statusCode := code; status := st |}.

(** Every thread can be fetched. *)
Definition fetchAll (submissionId : string) : FetchOutcome := inr (thread submissionId).

(** The second candidate is gone (404). *)
Definition fetchOneMissing (submissionId : string) : FetchOutcome :=
  if String.eqb submissionId "def4567" then inl (failure (Some 404) None)
  else inr (thread submissionId).

(** Reddit rejects the credentials at the second candidate. *)
Definition fetchRejected (submissionId : string) : FetchOutcome :=
  if String.eqb submissionId "def4567" then inl (failure (Some 401) None)
  else inr (thread submissionId).

(** The summarising call is the one with [max_tokens] 200. *)
Definition chatWith (perThread final : ChatOutcome) (req : ChatRequest) : ChatOutcome :=
  if max_tokens req =? 200 then perThread else final.

Definition helpful : ChatOutcome := inr (Some "  Read the book and write code.  ").
Definition offTopic : ChatOutcome := inr (Some "This thread is not relevant to the question.").
Definition answer : ChatOutcome := inr (Some "## Start with the book").

(** The model client rejects the credentials: HTTP code 401 in [status]. *)
Definition modelRejected : ChatOutcome := inl (failure None (Some 401)).

(** A reply of white space only: a no-break space, a space and a line feed. *)
Definition blank : ChatOutcome := inr (Some (String "160" (String " " (String "010" "")))).

Definition question : string := "how to learn rust".
Definition ids : list string := ["abc123"; "def4567"; "ghi89012"].

(** State after the search, and after the candidate loop. *)
Definition st1 (svc : Services unit) : State unit :=
  snd (googleCustomSearch svc question "key" "cse" st0).
Definition st2 (svc : Services unit) : State unit :=
  snd (fetchAndSummarize svc question ids [] (st1 svc)).

(** The summaries of the three threads when the model returns [text]. *)
Definition summariesOf (text : string) : list Summary :=
  map (fun name => {| summary := text;
                      source_link := "https://reddit.com/r/x/comments/" +:+ name +:+ "/" |})
      ids.

Definition svcOk : Services unit :=
  scripted found fetchAll (chatWith helpful answer).
Definition svcOffTopic : Services unit :=
  scripted found fetchAll (chatWith offTopic answer).
Definition svcNothingFound : Services unit :=
  scripted nothingFound fetchAll (chatWith helpful answer).
Definition svcSynthesisFails : Services unit :=
  scripted found fetchAll (chatWith helpful modelRejected).
Definition svcRedditRejected : Services unit :=
  scripted found fetchRejected (chatWith helpful answer).
Definition svcModelRejected : Services unit :=
  scripted found fetchAll (chatWith modelRejected answer).
Definition svcBlankSynthesis : Services unit :=
  scripted found fetchAll (chatWith helpful blank).
Definition svcBlankSummaries : Services unit :=
  scripted found fetchAll (chatWith blank answer).

(** Google refuses the search (quota). *)
Definition searchRefused : SearchOutcome :=
  SearchReply false 403 {| error_message := Some "Daily Limit Exceeded"; items := None |}.
Definition svcSearchRefused : Services unit :=
  scripted searchRefused fetchAll (chatWith helpful answer).

(** A configuration without the API key. *)
Definition noKey : Config :=
  {| GOOGLE_API_KEY := None; GOOGLE_CSE_ID := Some "cse" |}.

End Demo.

(** ** The page ([page.tsx])

    The client component keeps three pieces of state and, on submit,
    posts the question to the route and stores what comes back.  A render
    is modelled by the list of blocks it shows; markup and styling are
    left out, every condition of the JSX is kept. *)

Module Page.

(** [interface ResultData]: every field is optional. *)
Record ResultData := {
  finalSummary : option string;
  sources : option (list string);
  confidenceScore : option Z;
  error : option string
}.

(** [await response.json()] *)
Inductive JsonOutcome :=
| JsonThrows (e : JsError)
| JsonValue (data : ResultData).

(** What [fetch] resolves with. *)
Record HttpResponse := {
  ok : bool;
  status : Z;
  statusText : string;
  body : JsonOutcome
}.

Inductive Fetched :=
| FetchRejects (e : JsError)
| FetchResolves (response : HttpResponse).

(** The three [useState] cells. *)
Record Ui := {
  question : string;
  results : option ResultData;
  isLoading : bool
}.

Definition initial : Ui := {| question := ""; results := None; isLoading := false |}.

(** Calls of the state setters. *)
Inductive Update :=
| SetQuestion (v : string)
| SetResults (v : option ResultData)
| SetIsLoading (v : bool).

Definition apply (u : Update) (st : Ui) : Ui :=
  match u with
  | SetQuestion v => {| question := v; results := results st; isLoading := isLoading st |}
  | SetResults v => {| question := question st; results := v; isLoading := isLoading st |}
  | SetIsLoading v => {| question := question st; results := results st; isLoading := v |}
  end.

Definition run (us : list Update) (st : Ui) : Ui :=
  fold_left (fun s u => apply u s) us st.

(** [{ error: errorMessage }] *)
Definition errorOnly (msg : string) : ResultData :=
  {| finalSummary := None; sources := None; confidenceScore := None; error := Some msg |}.

(** The message the [catch] of [handleSubmit] shows. *)
Definition catchMessage (e : JsError) : string :=
  if isError e then message e
  else "Failed to get summary. Check console for details.".

(** [data.error || response.statusText || `HTTP error! status: ${response.status}`] *)
Definition httpErrorMessage (response : HttpResponse) (data : ResultData) : string :=
  Js.orElse (error data)
    (if Js.truthy (statusText response) then statusText response
     else "HTTP error! status: " +:+ Js.numToString (status response)).

(** The request the page sends: [JSON.stringify({ question })], read back
    by the route's [request.json()]. *)
Definition requestOf (st : Ui) : RequestBody := BodyJson (Some (question st)).

(** The setter calls of one [handleSubmit], given how the exchange went. *)
Definition handleSubmit (fetched : Fetched) : list Update :=
  [SetIsLoading true; SetResults None] ++
  match fetched with
  | FetchRejects e => [SetResults (Some (errorOnly (catchMessage e)))]
  | FetchResolves response =>
      match body response with
      | JsonThrows e => [SetResults (Some (errorOnly (catchMessage e)))]
      | JsonValue data =>
          if negb (ok response) then
            [SetResults (Some (errorOnly (httpErrorMessage response data)))]
          else [SetResults (Some data)]
      end
  end ++
  [SetIsLoading false].

Inductive Block :=
| QuestionInput (value : string)
| SubmitButton (label : string) (disabled : bool)
| Loading
| ErrorText (msg : string)
| Confidence (score : Z)
| Markdown (text : string)
| Sources (links : list string)
| NoInformation.

(** A string-valued field that is present and not empty. *)
Definition nonEmpty (v : option string) : option string :=
  match v with
  | Some s => if Js.truthy s then Some s else None
  | None => None
  end.

(** The results area: the error, or the answer, or the fallback text. *)
Definition resultBlocks (r : ResultData) : list Block :=
  match nonEmpty (error r) with
  | Some msg => [ErrorText msg]
  | None =>
      match nonEmpty (finalSummary r) with
      | Some text =>
          match confidenceScore r with Some n => [Confidence n] | None => [] end ++
          [Markdown text] ++
          match sources r with
          | Some (l :: ls) => [Sources (l :: ls)]
          | _ => []
          end
      | None => [NoInformation]
      end
  end.

Definition render (st : Ui) : list Block :=
  [QuestionInput (question st);
   SubmitButton (if isLoading st then "Getting answers..." else "Submit") (isLoading st)] ++
  (if isLoading st then [Loading] else []) ++
  match results st with
  | Some r => if negb (isLoading st) then resultBlocks r else []
  | None => []
  end.

End Page.

(** ** The route's response as the page receives it

    [NextResponse.json] sends the body as JSON with the given status, and
    [fetch] reports [ok] for a status from 200 to 299; the status text is
    the server's choice. *)

Definition dataOf (b : Body) : Page.ResultData :=
  match b with
  | ErrorBody e => Page.errorOnly e
  | AnswerBody f s c =>
      {| Page.finalSummary := Some f; Page.sources := Some s;
         Page.confidenceScore := Some c; Page.error := None |}
  end.

Definition delivered (statusText : string) (r : Response) : Page.Fetched :=
  Page.FetchResolves
    {| Page.ok := (200 <=? httpCode r) && (httpCode r <=? 299);
       Page.status := httpCode r;
       Page.statusText := statusText;
       Page.body := Page.JsonValue (dataOf (payload r)) |}.

(** * Vocabulary of the properties *)

(** ** Declarative reading of patterns *)

Fixpoint allChars (p : ascii -> bool) (s : string) : bool :=
  match s with
  | EmptyString => true
  | String c s' => p c && allChars p s'
  end.

(** [Matches ic r s caps s' caps']: pattern [r] matches a prefix of [s],
    leaving [s'] and turning the captures [caps] into [caps']. *)
Inductive Matches (ic : bool) : regex -> string -> captures -> string -> captures -> Prop :=
| M_str lit w s' caps :
    String.length w = String.length lit ->
    (if ic then Js.toLowerCase w = Js.toLowerCase lit else w = lit) ->
    Matches ic (RStr lit) (w +:+ s') caps s' caps
| M_set invert items c s' caps :
    setMatch ic invert items c = true ->
    Matches ic (RSet invert items) (String c s') caps s' caps
| M_repeat invert items min max w s' caps :
    allChars (setMatch ic invert items) w = true ->
    (min <= String.length w)%nat ->
    (forall m, max = Some m -> (String.length w <= m)%nat) ->
    Matches ic (RRepeat invert items min max) (w +:+ s') caps s' caps
| M_seq r1 r2 s caps s1 caps1 s2 caps2 :
    Matches ic r1 s caps s1 caps1 ->
    Matches ic r2 s1 caps1 s2 caps2 ->
    Matches ic (RSeq r1 r2) s caps s2 caps2
| M_alt_l r1 r2 s caps s' caps' :
    Matches ic r1 s caps s' caps' -> Matches ic (RAlt r1 r2) s caps s' caps'
| M_alt_r r1 r2 s caps s' caps' :
    Matches ic r2 s caps s' caps' -> Matches ic (RAlt r1 r2) s caps s' caps'
| M_group n r s caps s' caps' :
    Matches ic r s caps s' caps' ->
    Matches ic (RGroup n r) s caps s' ((n, consumed s s') :: caps')
| M_end caps : Matches ic REnd "" caps "" caps.

(** ** Shape of the URLs [extractRedditSubmissionId] accepts *)

Definition isAlnum (c : ascii) : bool :=
  Js.inRange "a" "z" c || Js.inRange "A" "Z" c || Js.inRange "0" "9" c.

Definition notSlash (c : ascii) : bool := negb (Ascii.eqb c "/").

(** [url] contains [reddit.com/r/<subforum>/comments/<id>], in any letter
    case, with a non-empty slash-free subforum, and the identifier is
    followed by a slash or ends the URL. *)
Definition submissionUrlShape (url id : string) : Prop :=
  exists pre dom sub cm post,
    url = pre +:+ dom +:+ sub +:+ cm +:+ id +:+ post /\
    Js.toLowerCase dom = "reddit.com/r/" /\
    (1 <= String.length sub)%nat /\ allChars notSlash sub = true /\
    Js.toLowerCase cm = "/comments/" /\
    allChars isAlnum id = true /\
    (6 <= String.length id <= 10)%nat /\
    (post = "" \/ Js.startsWith "/" post = true).

(** ** Containment and ordering *)

(** [kw] occurs somewhere in [s]. *)
Definition contains (s kw : string) : Prop := exists a b, s = a +:+ kw +:+ b.

(** Higher score first. *)
Definition scoreDescending (a b : Comment) : Prop := scoreOr0 b <= scoreOr0 a.

(** The comments of [l] whose effective score is [v], in the order of [l]. *)
Definition withScore (v : Z) (l : list Comment) : list Comment :=
  List.filter (fun c => scoreOr0 c =? v) l.

(** ** Candidate identifiers *)

(** The identifiers the search results contribute, in result order, with
    repetitions. *)
Definition extractedIds (results : list SearchItem) : list string :=
  omap candidateId results.

(** [ids] lists values in the order of their first occurrence in [ex]:
    whenever [x] stands before [y] in [ids], the first [x] of [ex] comes
    before every [y] of [ex]. *)
Definition firstOccurrenceOrder (ids ex : list string) : Prop :=
  forall l1 x l2 y l3,
    ids = l1 ++ x :: l2 ++ y :: l3 ->
    exists e1 e2, ex = e1 ++ x :: e2 /\ (x ∉ e1) /\ (y ∉ e1).

(** [ids] is [ex] with repetitions removed, first occurrences kept. *)
Record collected (ids ex : list string) : Prop := {
  col_nodup : NoDup ids;
  col_mem : forall id, id ∈ ids <-> id ∈ ex;
  col_order : firstOccurrenceOrder ids ex
}.

(** ** Runs of the candidate loop *)

Definition authFailureResponse : Response :=
  jsonStatus (ErrorBody "Reddit authentication failed.") 401.

(** [Iteration q id acc evs r]: one pass of the loop body for candidate
    [id], entered with the summaries [acc], makes the calls [evs] and ends
    in [r] ([inl]: the handler returns; [inr]: the summaries afterwards). *)
Inductive Iteration (q id : string) (acc : list Summary)
  : list Event -> Response + list Summary -> Prop :=
| It_fetch_auth e :
    statusCode e = Some 401 ->
    Iteration q id acc [EvFetch id (inl e)] (inl authFailureResponse)
| It_fetch_failed e :
    statusCode e <> Some 401 ->
    Iteration q id acc [EvFetch id (inl e)] (inr acc)
| It_no_comments sub :
    comments sub = None \/ comments sub = Some [] ->
    Iteration q id acc [EvFetch id (inr sub)] (inr acc)
| It_chat_auth sub cs e :
    comments sub = Some cs -> cs <> [] -> statusCode e = Some 401 ->
    Iteration q id acc
      [EvFetch id (inr sub);
       EvSummarize (summaryRequestOf q sub (topCommentsOf cs)) (inl e)]
      (inl authFailureResponse)
| It_chat_failed sub cs e :
    comments sub = Some cs -> cs <> [] -> statusCode e <> Some 401 ->
    Iteration q id acc
      [EvFetch id (inr sub);
       EvSummarize (summaryRequestOf q sub (topCommentsOf cs)) (inl e)]
      (inr acc)
| It_no_text sub cs content :
    comments sub = Some cs -> cs <> [] ->
    Js.orElse (Js.trim <$> content) "" = "" ->
    Iteration q id acc
      [EvFetch id (inr sub);
       EvSummarize (summaryRequestOf q sub (topCommentsOf cs)) (inr content)]
      (inr acc)
| It_summary sub cs text :
    comments sub = Some cs -> cs <> [] -> Js.truthy (Js.trim text) = true ->
    Iteration q id acc
      [EvFetch id (inr sub);
       EvSummarize (summaryRequestOf q sub (topCommentsOf cs)) (inr (Some text))]
      (inr (acc ++ [{| summary := Js.trim text; source_link := postLinkOf sub |}])).

(** [LoopRun q ids acc evs r]: the loop over [ids], entered with [acc],
    makes the calls [evs] and ends in [r]. *)
Inductive LoopRun (q : string)
  : list string -> list Summary -> list Event -> Response + list Summary -> Prop :=
| LR_done acc : LoopRun q [] acc [] (inr acc)
| LR_return id rest acc evs response :
    Iteration q id acc evs (inl response) ->
    LoopRun q (id :: rest) acc evs (inl response)
| LR_next id rest acc evs acc' evs' r :
    Iteration q id acc evs (inr acc') ->
    LoopRun q rest acc' evs' r ->
    LoopRun q (id :: rest) acc (evs ++ evs') r.

(** The error a per-candidate call ended with, if it failed. *)
Definition failedWith (ev : Event) : option JsError :=
  match ev with
  | EvFetch _ (inl e) | EvSummarize _ (inl e) => Some e
  | _ => None
  end.

(** The identifiers fetched, in call order. *)
Definition fetchedIds (evs : list Event) : list string :=
  omap (fun ev => match ev with EvFetch id _ => Some id | _ => None end) evs.

(** A credential rejection: the HTTP code 401, in whichever property the
    client reports it. *)
Definition isCredentialRejection (e : JsError) : Prop :=
  statusCode e = Some 401 \/ status e = Some 401.

(** A per-candidate call rejected with [statusCode] 401. *)
Definition isAuthFailure (ev : Event) : Prop :=
  exists e, failedWith ev = Some e /\ statusCode e = Some 401.

Definition isSynthesize (ev : Event) : bool :=
  match ev with EvSynthesize _ _ => true | _ => false end.

(** ** Runs of the handler *)

(** The request passes validation and configuration, the search yields
    the candidates [ids] (state [st1] afterwards), there is at least one,
    and the candidate loop runs to its end with the summaries [initial]
    (state [st2] afterwards). *)
Definition reachesFiltering {World} (svc : Services World) (cfg : Config)
    (request : RequestBody) (st : State World) (question : string)
    (ids : list string) (st1 : State World)
    (initial : list Summary) (st2 : State World) : Prop :=
  exists apiKey cseId,
    request = BodyJson (Some question) /\ Js.truthy question = true /\
    GOOGLE_API_KEY cfg = Some apiKey /\ GOOGLE_CSE_ID cfg = Some cseId /\
    Js.truthy apiKey = true /\ Js.truthy cseId = true /\
    googleCustomSearch svc question apiKey cseId st = (inr ids, st1) /\
    ids <> [] /\
    fetchAndSummarize svc question ids [] st1 = (inr initial, st2).

(** ** Acceptance of a request and shape of the summaries *)

(** The question of a request, and the Google settings, [""] when absent. *)
Definition questionOf (request : RequestBody) : string :=
  match request with
  | BodyJson (Some question) => question
  | _ => ""
  end.
Definition apiKeyOf (cfg : Config) : string := Js.orElse (GOOGLE_API_KEY cfg) "".
Definition cseIdOf (cfg : Config) : string := Js.orElse (GOOGLE_CSE_ID cfg) "".

(** The body could be read, the question is a non-empty string and both
    Google settings are present and non-empty. *)
Definition isAccepted (cfg : Config) (request : RequestBody) : bool :=
  match request with
  | BodyJson _ =>
      Js.truthy (questionOf request) && Js.truthy (apiKeyOf cfg) && Js.truthy (cseIdOf cfg)
  | BodyThrows _ => false
  end.

(** The search request the route sends for [question]. *)
Definition searchRequestOf (question apiKey cseId : string) : SearchRequest :=
  {| key := apiKey; cx := cseId; q := question +:+ " reddit";
     num := MAX_GOOGLE_RESULTS_TO_CHECK |}.

(** A summary has text and links to Reddit. *)
Definition wellFormedSummary (s : Summary) : Prop :=
  Js.truthy (summary s) = true /\
  Js.startsWith "https://reddit.com" (source_link s) = true.

Definition isFetch (ev : Event) : bool :=
  match ev with EvFetch _ _ => true | _ => false end.
Definition isSummarize (ev : Event) : bool :=
  match ev with EvSummarize _ _ => true | _ => false end.
Definition isSearch (ev : Event) : bool :=
  match ev with EvSearch _ _ => true | _ => false end.

(** Number of events of one kind. *)
Definition count (p : Event -> bool) (evs : list Event) : nat :=
  length (List.filter p evs).

(** ** Terminal outcomes of an accepted request *)

(** The final summary the route makes of the outcome of the synthesis
    call: a fixed text when the call threw, another when the reply is
    missing or blank, the trimmed reply otherwise. *)
Definition finalSummaryOf (out : ChatOutcome) : string :=
  match out with
  | inl _ => "Error occurred while synthesizing the final answer."
  | inr content => Js.orElse (Js.trim <$> content) "Could not synthesize a final answer."
  end.

(** [Outcome q req evs response]: the calls [evs] an accepted request for
    the question [q] makes, starting with the search [req], and the
    response it ends with. *)
Inductive Outcome (q : string) (req : SearchRequest) : list Event -> Response -> Prop :=
| O_search_threw e :
    Outcome q req [EvSearch req (SearchThrows e)]
      (jsonStatus
         (ErrorBody (if isError e then message e else "Failed to perform Google search."))
         500)
| O_search_refused code data :
    Outcome q req [EvSearch req (SearchReply false code data)]
      (jsonStatus
         (ErrorBody (Js.orElse (error_message data)
                       ("Google Search API failed with status " +:+ Js.numToString code)))
         500)
| O_empty code data :
    submissionIdsOf data = [] ->
    Outcome q req [EvSearch req (SearchReply true code data)]
      (json (AnswerBody
               "Could not find relevant Reddit discussions via Google for this question."
               [] 0))
| O_auth code data evs :
    submissionIdsOf data <> [] ->
    LoopRun q (submissionIdsOf data) [] evs (inl authFailureResponse) ->
    Outcome q req (EvSearch req (SearchReply true code data) :: evs) authFailureResponse
| O_unanswerable code data evs initial :
    submissionIdsOf data <> [] ->
    LoopRun q (submissionIdsOf data) [] evs (inr initial) ->
    filterRelevant initial = [] ->
    Outcome q req (EvSearch req (SearchReply true code data) :: evs)
      (json (AnswerBody
               "Found some Reddit discussions via Google, but couldn't extract direct answers."
               [] 15))
| O_answered code data evs initial out :
    submissionIdsOf data <> [] ->
    LoopRun q (submissionIdsOf data) [] evs (inr initial) ->
    filterRelevant initial <> [] ->
    Outcome q req
      (EvSearch req (SearchReply true code data) :: evs ++
       [EvSynthesize (synthesisRequestOf q (filterRelevant initial)) out])
      (json (AnswerBody (finalSummaryOf out) (map source_link (filterRelevant initial))
               (calculateConfidence (Z.of_nat (length (filterRelevant initial)))))).

(** * Properties *)

(** ** Strings *)

Section StringFacts.

Lemma app_nil_l_s (s : string) : "" +:+ s = s.
Proof. reflexivity. Qed.

Lemma app_cons_s (c : ascii) (a b : string) : String c a +:+ b = String c (a +:+ b).
Proof. reflexivity. Qed.

Lemma app_nil_r_s (s : string) : s +:+ "" = s.
Proof. induction s; rewrite ?app_nil_l_s, ?app_cons_s; congruence. Qed.

Lemma app_assoc_s (a b c : string) : (a +:+ b) +:+ c = a +:+ b +:+ c.
Proof. induction a; rewrite ?app_nil_l_s, ?app_cons_s; congruence. Qed.

Lemma app_length_s (a b : string) :
  String.length (a +:+ b) = (String.length a + String.length b)%nat.
Proof. induction a; rewrite ?app_nil_l_s, ?app_cons_s; simpl; congruence. Qed.

Lemma startsWith_spec (p s : string) :
  Js.startsWith p s = true <-> exists b, s = p +:+ b.
Proof.
  revert s; induction p as [|a p IH]; intros s; simpl.
  - split; eauto.
  - destruct s as [|c s].
    + split; [discriminate | intros [b Hb]; discriminate].
    + setoid_rewrite app_cons_s.
      destruct (Ascii.eqb_spec a c) as [->|Hne].
      * rewrite IH. split; intros [b Hb]; exists b; congruence.
      * split; [discriminate | intros [b Hb]; congruence].
Qed.

Lemma includes_spec (s kw : string) :
  Js.includes s kw = true <-> exists a b, s = a +:+ kw +:+ b.
Proof.
  induction s as [|c s IH]; simpl.
  - rewrite orb_false_r, startsWith_spec. split.
    + intros [b Hb]. by exists "", b.
    + intros (a & b & Hab). destruct a; [by exists b | discriminate].
  - rewrite orb_true_iff, startsWith_spec, IH. split.
    + intros [[b Hb] | (a & b & Hab)].
      * by exists "", b.
      * exists (String c a), b. rewrite app_cons_s. congruence.
    + intros (a & b & Hab). destruct a as [|c' a].
      * left. by exists b.
      * right. exists a, b. rewrite app_cons_s in Hab. congruence.
Qed.

Lemma toLowerCase_app (a b : string) :
  Js.toLowerCase (a +:+ b) = Js.toLowerCase a +:+ Js.toLowerCase b.
Proof.
  induction a; rewrite ?app_nil_l_s, ?app_cons_s; simpl;
    rewrite ?app_cons_s; congruence.
Qed.

Lemma lower_upper (c : ascii) : Js.lowerChar (Js.upperChar c) = Js.lowerChar c.
Proof. destruct c as [[] [] [] [] [] [] [] []]; reflexivity. Qed.

End StringFacts.

(** ** The matcher is sound for a declarative reading of patterns *)

Section RegexFacts.
Variable ic : bool.

Lemma litMatch_sound (lit s s' : string) :
  litMatch ic lit s = Some s' ->
  exists w, s = w +:+ s' /\ String.length w = String.length lit /\
            (if ic then Js.toLowerCase w = Js.toLowerCase lit else w = lit).
Proof.
  revert s; induction lit as [|a lit IH]; intros s H; simpl in H.
  - injection H as ->. exists "". by destruct ic.
  - destruct s as [|b s]; [discriminate|].
    destruct (charEq ic a b) eqn:E; [|discriminate].
    destruct (IH _ H) as (w & -> & Hlen & Hw).
    exists (String b w). rewrite app_cons_s. split; [done|]. split; [simpl; congruence|].
    unfold charEq in E. destruct ic.
    + apply Ascii.eqb_eq in E. simpl. f_equal; [|done].
      by rewrite <- (lower_upper b), <- E, lower_upper.
    + apply Ascii.eqb_eq in E. congruence.
Qed.

Lemma repeatMatch_sound {R} (p : ascii -> bool) (s : string) :
  forall (min : nat) (max : option nat) (k : string -> option R) (res : R),
    repeatMatch p min max s k = Some res ->
    exists w s', s = w +:+ s' /\ allChars p w = true /\ (min <= String.length w)%nat /\
                 (forall m, max = Some m -> (String.length w <= m)%nat) /\
                 k s' = Some res.
Proof.
  induction s as [|c s IH]; intros min max k res H; simpl in H.
  - destruct min; [|discriminate].
    exists "", "". repeat split; simpl; try done; intros; lia.
  - assert (Hstop : match min with O => k (String c s) | S _ => None end = Some res ->
             exists w s', String c s = w +:+ s' /\ allChars p w = true /\
               (min <= String.length w)%nat /\
               (forall m, max = Some m -> (String.length w <= m)%nat) /\ k s' = Some res).
    { destruct min; [|discriminate]. intros Hk.
      exists "", (String c s). repeat split; simpl; try done; intros; lia. }
    destruct (p c && match max with Some O => false | _ => true end) eqn:E; [|auto].
    apply andb_true_iff in E as [Hp Hmax].
    destruct (repeatMatch p (Nat.pred min) (Nat.pred <$> max) s k) as [r'|] eqn:Hrec; [|auto].
    injection H as ->.
    destruct (IH _ _ _ _ Hrec) as (w & s' & -> & Hall & Hmin & Hmx & Hk).
    exists (String c w), s'. rewrite app_cons_s. simpl. rewrite Hp, Hall.
    repeat split; try done; [lia|].
    intros m ->. destruct m; [discriminate|]. specialize (Hmx m eq_refl). lia.
Qed.

Lemma run_sound (r : regex) :
  forall s caps k res,
    run ic r s caps k = Some res ->
    exists s' caps', Matches ic r s caps s' caps' /\ k s' caps' = Some res.
Proof.
  induction r as [lit|invert items|invert items min max|r1 IH1 r2 IH2|r1 IH1 r2 IH2|n r IH|];
    intros s caps k res H; simpl in H.
  - destruct (litMatch ic lit s) as [s'|] eqn:E; [|discriminate].
    destruct (litMatch_sound _ _ _ E) as (w & -> & Hlen & Hw).
    exists s', caps. split; [by constructor | done].
  - destruct s as [|c s]; [discriminate|].
    destruct (setMatch ic invert items c) eqn:E; [|discriminate].
    exists s, caps. split; [by constructor | done].
  - destruct (repeatMatch_sound _ _ _ _ _ _ H) as (w & s' & -> & Hall & Hmin & Hmax & Hk).
    exists s', caps. split; [by constructor | done].
  - destruct (IH1 _ _ _ _ H) as (s1 & caps1 & HM1 & Hk1).
    destruct (IH2 _ _ _ _ Hk1) as (s2 & caps2 & HM2 & Hk2).
    exists s2, caps2. split; [by econstructor | done].
  - destruct (run ic r1 s caps k) as [res1|] eqn:E1.
    + injection H as ->. destruct (IH1 _ _ _ _ E1) as (s' & caps' & HM & Hk).
      exists s', caps'. split; [by apply M_alt_l | done].
    + destruct (IH2 _ _ _ _ H) as (s' & caps' & HM & Hk).
      exists s', caps'. split; [by apply M_alt_r | done].
  - destruct (IH _ _ _ _ H) as (s' & caps' & HM & Hk).
    exists s', ((n, consumed s s') :: caps'). split; [by constructor | done].
  - destruct s; [|discriminate]. exists "", caps. split; [constructor | done].
Qed.

(** A successful [exec] found the pattern at some position of the input. *)
Lemma exec_sound (r : regex) (s : string) (caps : captures) :
  exec ic r s = Some caps ->
  exists pre s0 s', s = pre +:+ s0 /\ Matches ic r s0 [] s' caps.
Proof.
  induction s as [|c s IH]; simpl; intros H.
  - destruct (run ic r "" [] _) as [res|] eqn:E; [|discriminate].
    injection H as ->. destruct (run_sound _ _ _ _ _ E) as (s' & caps' & HM & Hk).
    injection Hk as ->. by exists "", "", s'.
  - destruct (run ic r (String c s) [] _) as [res|] eqn:E.
    + injection H as ->. destruct (run_sound _ _ _ _ _ E) as (s' & caps' & HM & Hk).
      injection Hk as ->. by exists "", (String c s), s'.
    + destruct (IH H) as (pre & s0 & s' & -> & HM).
      by exists (String c pre), s0, s'.
Qed.

Lemma consumed_app (w s' : string) : consumed (w +:+ s') s' = w.
Proof.
  unfold consumed. rewrite app_length_s.
  replace (String.length w + String.length s' - String.length s')%nat
    with (String.length w) by lia.
  induction w as [|c w IH]; rewrite ?app_nil_l_s, ?app_cons_s; simpl.
  - by destruct s'.
  - by rewrite IH.
Qed.

End RegexFacts.

(** ** [extractRedditSubmissionId] accepts only URLs of the expected shape *)

Lemma alnumClass_spec (c : ascii) : setMatch true false alnumClass c = isAlnum c.
Proof. destruct c as [[] [] [] [] [] [] [] []]; reflexivity. Qed.

Lemma notSlash_spec (c : ascii) : setMatch true true [CChar "/"] c = notSlash c.
Proof. destruct c as [[] [] [] [] [] [] [] []]; reflexivity. Qed.

Lemma allChars_ext (p q : ascii -> bool) (s : string) :
  (forall c, p c = q c) -> allChars p s = allChars q s.
Proof. intros E. induction s; simpl; [done|]. by rewrite E, IHs. Qed.

Lemma extract_shape (url id : string) :
  extractRedditSubmissionId url = Some id -> submissionUrlShape url id.
Proof.
  unfold extractRedditSubmissionId.
  destruct (exec true submissionIdPattern url) as [caps|] eqn:E; [|discriminate].
  intros Hcap.
  destruct (exec_sound _ _ _ _ E) as (pre & s0 & s' & -> & HM).
  unfold submissionIdPattern in HM.
  inversion HM as [| | |? ? ? ? s1 c1 ? ? Hdom Hrest| | | |]; subst; clear HM.
  inversion Hdom as [? dom ? ? Hdl Hdom'| | | | | | |]; subst; clear Hdom.
  inversion Hrest as [| | |? ? ? ? s2 c2 ? ? Hsub Hrest2| | | |]; subst; clear Hrest.
  inversion Hsub as [| |? ? ? ? sub ? ? Hsuball Hsubmin Hsubmax| | | | |]; subst; clear Hsub.
  inversion Hrest2 as [| | |? ? ? ? s3 c3 ? ? Hcm Hrest3| | | |]; subst; clear Hrest2.
  inversion Hcm as [? cm ? ? Hcl Hcm'| | | | | | |]; subst; clear Hcm.
  inversion Hrest3 as [| | |? ? ? ? s4 c4 ? ? Hg1 Hg2| | | |]; subst; clear Hrest3.
  inversion Hg1 as [| | | | | |? ? ? ? ? c5 Hid|]; subst; clear Hg1.
  inversion Hid as [| |? ? ? ? w ? ? Hidall Hidmin Hidmax| | | | |]; subst; clear Hid.
  inversion Hg2 as [| | | | | |? ? ? ? ? c6 Halt|]; subst; clear Hg2.
  assert (Hpost : c6 = [(1%nat, consumed (w +:+ s4) s4)] /\
                  (s4 = "" \/ Js.startsWith "/" s4 = true)).
  { inversion Halt as [| | | |? ? ? ? ? ? Hl|? ? ? ? ? ? Hr| |]; subst; clear Halt.
    - inversion Hl as [? sl ? ? Hsl Hsl'| | | | | | |]; subst. split; [done|]. right.
      destruct sl as [|c [|]]; try discriminate. simpl in Hsl'.
      injection Hsl' as Hc. rewrite app_cons_s, app_nil_l_s. simpl.
      revert Hc. destruct c as [[] [] [] [] [] [] [] []]; simpl; try discriminate; done.
    - inversion Hr; subst. split; [done | by left]. }
  destruct Hpost as [-> Hpost].
  rewrite consumed_app in Hcap. simpl in Hcap. injection Hcap as ->.
  exists pre, dom, sub, cm, s4. repeat split; try done.
  - by rewrite (allChars_ext _ _ _ notSlash_spec) in Hsuball.
  - by rewrite (allChars_ext _ _ _ alnumClass_spec) in Hidall.
  - by apply Hidmax.
Qed.

(** ** Step 1: the candidate identifiers *)

Section Candidates.

Lemma has_spec (x : string) (l : list string) : Arr.has x l = true <-> x ∈ l.
Proof.
  unfold Arr.has. rewrite existsb_exists. split.
  - intros (y & Hy & E). apply String.eqb_eq in E as ->. by apply list_elem_of_In.
  - intros H. exists x. split; [by apply list_elem_of_In | apply String.eqb_refl].
Qed.

Lemma add_length (id : string) (ids : list string) :
  (length (Arr.add id ids) <= S (length ids))%nat.
Proof.
  unfold Arr.add. destruct (Arr.has id ids); [lia|].
  rewrite length_app. simpl. lia.
Qed.

Lemma collected_nil : collected [] [].
Proof.
  split; [constructor | done |].
  intros l1 x l2 y l3 H. by destruct l1.
Qed.

Lemma collected_skip (ids ex : list string) (id : string) :
  id ∈ ids -> collected ids ex -> collected ids (ex ++ [id]).
Proof.
  intros Hin [Hnd Hmem Hord]. split; [done | |].
  - intros x. rewrite elem_of_app, list_elem_of_singleton, <- Hmem.
    split; [tauto | intros [?| ->]; done].
  - intros l1 x l2 y l3 E. destruct (Hord _ _ _ _ _ E) as (e1 & e2 & -> & ? & ?).
    exists e1, (e2 ++ [id]). by rewrite <- app_assoc.
Qed.

Lemma collected_push (ids ex : list string) (id : string) :
  id ∉ ids -> collected ids ex -> collected (ids ++ [id]) (ex ++ [id]).
Proof.
  intros Hnin [Hnd Hmem Hord]. split.
  - apply NoDup_app. split; [done|]. split; [|apply NoDup_singleton].
    intros x Hx ->%list_elem_of_singleton. done.
  - intros x. rewrite !elem_of_app, Hmem. done.
  - intros l1 x l2 y l3 E.
    destruct l3 as [|z l3 _] using rev_ind.
    + replace (l1 ++ x :: l2 ++ [y]) with ((l1 ++ x :: l2) ++ [y]) in E
        by (by rewrite <- app_assoc).
      apply app_inj_tail in E as [-> ->].
      assert (Hx : x ∈ ex) by (apply Hmem; rewrite elem_of_app, elem_of_cons; auto).
      apply list_elem_of_split_l in Hx as (e1 & e2 & -> & Hx).
      exists e1, (e2 ++ [y]). rewrite <- app_assoc. split; [done|]. split; [done|].
      intros Hy. apply Hnin, Hmem. rewrite elem_of_app. auto.
    + replace (l1 ++ x :: l2 ++ y :: l3 ++ [z]) with ((l1 ++ x :: l2 ++ y :: l3) ++ [z]) in E
        by (repeat (rewrite <- app_assoc; simpl); done).
      apply app_inj_tail in E as [-> ->].
      destruct (Hord _ _ _ _ _ eq_refl) as (e1 & e2 & -> & ? & ?).
      exists e1, (e2 ++ [z]). by rewrite <- app_assoc.
Qed.

Lemma collected_add (ids ex : list string) (id : string) :
  collected ids ex -> collected (Arr.add id ids) (ex ++ [id]).
Proof.
  intros H. unfold Arr.add. destruct (Arr.has id ids) eqn:E.
  - apply collected_skip; [by apply has_spec | done].
  - apply collected_push; [|done]. rewrite <- has_spec. congruence.
Qed.

Lemma collectIds_cons (item : SearchItem) (rest : list SearchItem)
    (foundIds : list string) :
  collectIds (item :: rest) foundIds =
  let foundIds' := match candidateId item with
                   | Some submissionId => Arr.add submissionId foundIds
                   | None => foundIds
                   end in
  if (MAX_REDDIT_POSTS_TO_PROCESS <=? length foundIds')%nat then foundIds'
  else collectIds rest foundIds'.
Proof. reflexivity. Qed.

(** The loop of step 1 maintains [collected] over the results it has
    looked at, and leaves early only with a full set. *)
Lemma collectIds_spec (results : list SearchItem) :
  forall seen foundIds,
    collected foundIds (extractedIds seen) ->
    (length foundIds < MAX_REDDIT_POSTS_TO_PROCESS)%nat ->
    exists processed rest,
      results = processed ++ rest /\
      collected (collectIds results foundIds) (extractedIds (seen ++ processed)) /\
      (length (collectIds results foundIds) <= MAX_REDDIT_POSTS_TO_PROCESS)%nat /\
      (rest = [] \/ length (collectIds results foundIds) = MAX_REDDIT_POSTS_TO_PROCESS).
Proof.
  induction results as [|item results IH]; intros seen foundIds Hcol Hlen.
  - exists [], []. simpl. rewrite app_nil_r. split; [done|]. split; [done|].
    split; [unfold MAX_REDDIT_POSTS_TO_PROCESS in *; lia | by left].
  - rewrite collectIds_cons. cbv zeta.
    set (foundIds' := match candidateId item with
                      | Some submissionId => Arr.add submissionId foundIds
                      | None => foundIds
                      end).
    assert (Hcol' : collected foundIds' (extractedIds (seen ++ [item]))).
    { unfold extractedIds. rewrite omap_app. simpl. subst foundIds'.
      destruct (candidateId item) as [id|]; simpl.
      - by apply collected_add.
      - by rewrite app_nil_r. }
    assert (Hlen' : (length foundIds' <= MAX_REDDIT_POSTS_TO_PROCESS)%nat).
    { subst foundIds'. destruct (candidateId item) as [id|]; [|lia].
      pose proof (add_length id foundIds). lia. }
    destruct (Nat.leb_spec MAX_REDDIT_POSTS_TO_PROCESS (length foundIds')) as [Hfull|Hmore].
    + exists [item], results. split; [done|]. split; [done|]. split; [done|]. right. lia.
    + destruct (IH (seen ++ [item]) foundIds' Hcol' Hmore)
        as (processed & rest & -> & Hc & Hl & Hr).
      exists (item :: processed), rest. rewrite <- app_assoc in Hc. done.
Qed.

Lemma candidateId_spec (item : SearchItem) (id : string) :
  candidateId item = Some id ->
  exists l, link item = Some l /\ Js.includes l "reddit.com" = true /\
            extractRedditSubmissionId l = Some id.
Proof.
  unfold candidateId. destruct (link item) as [l|]; [|discriminate].
  destruct (Js.truthy l && Js.includes l "reddit.com") eqn:E; [|discriminate].
  apply andb_true_iff in E as [_ Hinc].
  destruct (extractRedditSubmissionId l) as [i|] eqn:Hid; [|discriminate].
  destruct (Js.truthy i); [|discriminate]. intros [= ->]. by exists l.
Qed.

End Candidates.

(** ** The comparator sort *)

Section SortFacts.

Lemma insert_perm (x : Comment) (l : list Comment) :
  Permutation (Arr.insert byScoreDesc x l) (x :: l).
Proof.
  induction l as [|y l IH]; simpl; [done|].
  destruct (byScoreDesc x y <=? 0); [done|].
  rewrite IH. apply perm_swap.
Qed.

Lemma sort_perm (l : list Comment) : Permutation (Arr.sort byScoreDesc l) l.
Proof.
  induction l as [|x l IH]; simpl; [done|].
  by rewrite insert_perm, IH.
Qed.

Lemma insert_sorted (x : Comment) (l : list Comment) :
  StronglySorted scoreDescending l ->
  StronglySorted scoreDescending (Arr.insert byScoreDesc x l).
Proof.
  induction 1 as [|y l Hsorted IH Hall]; simpl.
  - repeat constructor.
  - destruct (Z.leb_spec (byScoreDesc x y) 0) as [Hle|Hgt];
      unfold byScoreDesc in *.
    + constructor; [by constructor|].
      constructor; [unfold scoreDescending; lia|].
      eapply Forall_impl; [exact Hall|]. unfold scoreDescending. intros; lia.
    + constructor; [done|]. rewrite insert_perm.
      constructor; [unfold scoreDescending; lia | done].
Qed.

Lemma sort_sorted (l : list Comment) :
  StronglySorted scoreDescending (Arr.sort byScoreDesc l).
Proof.
  induction l as [|x l IH]; simpl; [constructor | by apply insert_sorted].
Qed.

(** Insertion never moves a comment past one of equal score. *)
Lemma insert_withScore (v : Z) (x : Comment) (l : list Comment) :
  withScore v (Arr.insert byScoreDesc x l) = withScore v (x :: l).
Proof.
  unfold withScore. induction l as [|y l IH]; [done|]. simpl Arr.insert.
  destruct (Z.leb_spec (byScoreDesc x y) 0) as [Hle|Hgt]; [done|].
  unfold byScoreDesc in Hgt. simpl in *. rewrite IH.
  destruct (Z.eqb_spec (scoreOr0 x) v), (Z.eqb_spec (scoreOr0 y) v); try done. lia.
Qed.

Lemma sort_withScore (v : Z) (l : list Comment) :
  withScore v (Arr.sort byScoreDesc l) = withScore v l.
Proof.
  induction l as [|x l IH]; [done|]. simpl Arr.sort.
  rewrite insert_withScore. unfold withScore in *. simpl. by rewrite IH.
Qed.

Lemma sort_length (l : list Comment) : length (Arr.sort byScoreDesc l) = length l.
Proof. apply Permutation_length, sort_perm. Qed.

Lemma withScore_elem (v : Z) (c : Comment) (l : list Comment) :
  c ∈ withScore v l <-> c ∈ l /\ scoreOr0 c = v.
Proof.
  unfold withScore. rewrite !list_elem_of_In, filter_In, Z.eqb_eq. done.
Qed.

Lemma withScore_cons (v : Z) (c : Comment) (l : list Comment) :
  withScore v (c :: l) = if scoreOr0 c =? v then c :: withScore v l else withScore v l.
Proof. reflexivity. Qed.

(** Two descending lists with the same comments in the same order at
    every score are the same list: the requirements on the built-in sort
    leave no choice. *)
Lemma stable_sorted_unique (l1 : list Comment) :
  forall l2,
    StronglySorted scoreDescending l1 -> StronglySorted scoreDescending l2 ->
    (forall v, withScore v l1 = withScore v l2) ->
    l1 = l2.
Proof.
  induction l1 as [|x l1 IH]; intros l2 Hs1 Hs2 Heq.
  - destruct l2 as [|y l2]; [done|].
    specialize (Heq (scoreOr0 y)). rewrite withScore_cons, Z.eqb_refl in Heq. done.
  - destruct l2 as [|y l2].
    { specialize (Heq (scoreOr0 x)). rewrite withScore_cons, Z.eqb_refl in Heq. done. }
    inversion Hs1 as [|? ? Hs1' Hall1]; subst.
    inversion Hs2 as [|? ? Hs2' Hall2]; subst.
    assert (Hxy : scoreOr0 x = scoreOr0 y).
    { assert (Hx : x ∈ y :: l2).
      { apply (withScore_elem (scoreOr0 x)). rewrite <- Heq, withScore_cons, Z.eqb_refl.
        apply elem_of_cons. by left. }
      assert (Hy : y ∈ x :: l1).
      { apply (withScore_elem (scoreOr0 y)). rewrite Heq, withScore_cons, Z.eqb_refl.
        apply elem_of_cons. by left. }
      rewrite Forall_forall in Hall1, Hall2. unfold scoreDescending in *.
      apply elem_of_cons in Hx as [->|Hx]; [done|].
      apply elem_of_cons in Hy as [->|Hy]; [done|].
      apply Hall2 in Hx. apply Hall1 in Hy. lia. }
    assert (x = y) as <-.
    { specialize (Heq (scoreOr0 x)).
      rewrite !withScore_cons, <- Hxy, Z.eqb_refl in Heq. congruence. }
    f_equal. apply IH; [done..|].
    intros v. specialize (Heq v). rewrite !withScore_cons in Heq.
    destruct (scoreOr0 x =? v); congruence.
Qed.

End SortFacts.

(** ** The relevance filter *)

Section FilterFacts.

Lemma some_false {A} (p : A -> bool) (l : list A) :
  some p l = false <-> forall x, x ∈ l -> p x = false.
Proof.
  unfold some. induction l as [|y l IH]; simpl.
  - split; [intros _ x Hx; by apply elem_of_nil in Hx | done].
  - rewrite orb_false_iff, IH. split.
    + intros [Hy Hl] x [->|Hx]%elem_of_cons; auto.
    + intros H. split; [apply H; left | intros x Hx; apply H; by right].
Qed.

Lemma filterRelevant_sublist (l : list Summary) : filterRelevant l `sublist_of` l.
Proof.
  unfold filterRelevant. induction l as [|s l IH]; simpl; [done|].
  destruct (isSummaryRelevant (summary s)); by constructor.
Qed.

Lemma filterRelevant_elem (l : list Summary) (s : Summary) :
  s ∈ filterRelevant l <-> s ∈ l /\ isSummaryRelevant (summary s) = true.
Proof.
  unfold filterRelevant. rewrite !list_elem_of_In, filter_In. done.
Qed.

Lemma filterRelevant_greatest (l l' : list Summary) :
  l' `sublist_of` l ->
  Forall (fun s => isSummaryRelevant (summary s) = true) l' ->
  l' `sublist_of` filterRelevant l.
Proof.
  unfold filterRelevant. induction 1 as [|s l1 l2 Hsub IH|s l1 l2 Hsub IH]; intros Hall; simpl.
  - done.
  - inversion Hall as [|? ? Hs Hrest]; subst. rewrite Hs. constructor. by apply IH.
  - destruct (isSummaryRelevant (summary s)); [constructor|]; by apply IH.
Qed.

Lemma sublist_map {A B} (f : A -> B) (l1 l2 : list A) :
  l1 `sublist_of` l2 -> map f l1 `sublist_of` map f l2.
Proof. induction 1; simpl; by constructor. Qed.

End FilterFacts.

(** ** The handler's runs *)

Section RouteFacts.
Context {World : Type}.
Variable svc : Services World.

Lemma topCommentsOf_length (cs : list Comment) :
  length (topCommentsOf cs) = Nat.min MAX_COMMENTS_PER_POST (length cs).
Proof.
  unfold topCommentsOf, Arr.slice0. by rewrite length_take, sort_length.
Qed.

Lemma call_run {A} (op : World -> A * World) (ev : A -> Event) (st : State World) :
  call op ev st =
  (fst (op (world st)),
   {| world := snd (op (world st)); trace := trace st ++ [ev (fst (op (world st)))] |}).
Proof. unfold call. by destruct (op (world st)). Qed.

Lemma loopCatch_run (e : JsError) (acc : list Summary) (st : State World) :
  loopCatch e acc st =
  (if bool_decide (statusCode e = Some 401) then inl authFailureResponse else inr acc, st).
Proof. unfold loopCatch. by case_bool_decide. Qed.

Lemma loopBody_iteration (q id : string) (acc : list Summary) (st st' : State World)
    (r : Response + list Summary) :
  loopBody svc q id acc st = (r, st') ->
  exists evs, trace st' = trace st ++ evs /\ Iteration q id acc evs r.
Proof.
  unfold loopBody, bind. rewrite call_run.
  destruct (getSubmission svc id (world st)) as [[e|sub] w1]; simpl.
  - rewrite loopCatch_run. intros [= <- <-]. simpl. eexists. split; [done|].
    case_bool_decide; by constructor.
  - destruct (comments sub) as [[|c cs]|] eqn:Hcs.
    + intros [= <- <-]. simpl. eexists. split; [done|]. constructor. by right.
    + pose proof (topCommentsOf_length (c :: cs)) as Hlen.
      destruct (Nat.eqb_spec (length (topCommentsOf (c :: cs))) 0) as [Hz|_].
      { rewrite Hz in Hlen. simpl in Hlen. unfold MAX_COMMENTS_PER_POST in Hlen. lia. }
      rewrite call_run. simpl.
      destruct (chatCreate svc _ w1) as [[e|content] w2]; simpl.
      * rewrite loopCatch_run. intros [= <- <-]. simpl.
        eexists. split; [by rewrite <- app_assoc|].
        case_bool_decide; by econstructor.
      * destruct content as [text|]; simpl.
        -- destruct (Js.truthy (Js.trim text)) eqn:Ht; intros [= <- <-]; simpl;
             (eexists; split; [by rewrite <- app_assoc|]).
           ++ by econstructor.
           ++ eapply It_no_text; [done..|]. simpl. by rewrite Ht.
        -- intros [= <- <-]. simpl. eexists. split; [by rewrite <- app_assoc|].
           by eapply It_no_text.
    + intros [= <- <-]. simpl. eexists. split; [done|]. constructor. by left.
Qed.

Lemma fetchAndSummarize_run (q : string) (ids : list string) :
  forall (acc : list Summary) (st st' : State World) (r : Response + list Summary),
    fetchAndSummarize svc q ids acc st = (r, st') ->
    exists evs, trace st' = trace st ++ evs /\ LoopRun q ids acc evs r.
Proof.
  induction ids as [|id rest IH]; intros acc st st' r; simpl.
  - intros [= <- <-]. exists []. rewrite app_nil_r. split; [done | constructor].
  - unfold bind. destruct (loopBody svc q id acc st) as [r1 st1] eqn:Hbody.
    destruct (loopBody_iteration _ _ _ _ _ _ Hbody) as (evs & Htr & Hit).
    destruct r1 as [response|acc'].
    + intros [= <- <-]. exists evs. split; [done | by constructor].
    + intros Hrest. destruct (IH _ _ _ _ Hrest) as (evs' & Htr' & Hrun).
      exists (evs ++ evs'). split; [by rewrite Htr', Htr, app_assoc|].
      by econstructor.
Qed.

End RouteFacts.

(** ** What a run of the candidate loop looks like *)

Section LoopFacts.
Variable q : string.

Lemma Iteration_no_synthesize id acc evs r :
  Iteration q id acc evs r -> Forall (fun ev => isSynthesize ev = false) evs.
Proof. destruct 1; repeat constructor. Qed.

Lemma LoopRun_no_synthesize ids acc evs r :
  LoopRun q ids acc evs r -> Forall (fun ev => isSynthesize ev = false) evs.
Proof.
  induction 1 as [| |? ? ? ? ? ? ? Hit Hrun IH]; [constructor| |].
  - by eapply Iteration_no_synthesize.
  - apply Forall_app. split; [by eapply Iteration_no_synthesize | done].
Qed.

Lemma Iteration_fetched id acc evs r :
  Iteration q id acc evs r -> fetchedIds evs = [id].
Proof. by destruct 1. Qed.

(** An iteration that goes on made no call that was rejected with 401. *)
Lemma Iteration_continue id acc evs acc' :
  Iteration q id acc evs (inr acc') -> Forall (fun ev => ~ isAuthFailure ev) evs.
Proof.
  inversion 1; subst; repeat constructor;
    intros (e' & Hf & Hc); simpl in Hf; congruence.
Qed.

(** An iteration that returns ends in a call rejected with 401. *)
Lemma Iteration_return id acc evs response :
  Iteration q id acc evs (inl response) ->
  response = authFailureResponse /\
  exists evs0 ev, evs = evs0 ++ [ev] /\ isAuthFailure ev /\
                  Forall (fun ev => ~ isAuthFailure ev) evs0.
Proof.
  inversion 1; subst; (split; [done|]).
  - exists [], (EvFetch id (inl e)). repeat split; [by exists e | constructor].
  - exists [EvFetch id (inr sub)], (EvSummarize (summaryRequestOf q sub (topCommentsOf cs)) (inl e)).
    repeat split; [by exists e|]. constructor; [|constructor].
    intros (e' & Hf & _). discriminate.
Qed.

(** A failed call that is not a 401 leaves the summaries as they were. *)
Lemma Iteration_skip id acc evs r ev e :
  Iteration q id acc evs r -> ev ∈ evs -> failedWith ev = Some e ->
  statusCode e <> Some 401 -> r = inr acc.
Proof.
  intros Hit Hin Hf Hne.
  inversion Hit; subst; try done;
    repeat (apply elem_of_cons in Hin as [->|Hin]); try (by apply elem_of_nil in Hin);
    simpl in Hf; congruence.
Qed.

Lemma fetchedIds_app evs evs' : fetchedIds (evs ++ evs') = fetchedIds evs ++ fetchedIds evs'.
Proof. apply omap_app. Qed.

Lemma LoopRun_continue ids acc evs initial :
  LoopRun q ids acc evs (inr initial) ->
  fetchedIds evs = ids /\ Forall (fun ev => ~ isAuthFailure ev) evs.
Proof.
  remember (inr initial) as r eqn:Er. intros Hrun. revert initial Er.
  induction Hrun as [| |id rest acc evs acc' evs' r Hit Hrun IH]; intros initial Er;
    [by split | discriminate |].
  destruct (IH _ Er) as [Hids Hall]. split.
  - rewrite fetchedIds_app, (Iteration_fetched _ _ _ _ Hit), Hids. done.
  - apply Forall_app. split; [by eapply Iteration_continue | done].
Qed.

Lemma LoopRun_return ids acc evs response :
  LoopRun q ids acc evs (inl response) ->
  response = authFailureResponse /\
  fetchedIds evs `prefix_of` ids /\
  exists evs0 ev, evs = evs0 ++ [ev] /\ isAuthFailure ev /\
                  Forall (fun ev => ~ isAuthFailure ev) evs0.
Proof.
  remember (inl response) as r eqn:Er. intros Hrun. revert response Er.
  induction Hrun as [|id rest acc evs resp Hit|id rest acc evs acc' evs' r Hit Hrun IH];
    intros response Er; [discriminate | |].
  - injection Er as ->. destruct (Iteration_return _ _ _ _ Hit) as [-> Hlast].
    split; [done|]. split; [|done].
    rewrite (Iteration_fetched _ _ _ _ Hit). by exists rest.
  - destruct (IH _ Er) as (-> & Hpre & evs0 & ev & -> & Hauth & Hall).
    split; [done|]. split.
    + rewrite fetchedIds_app, (Iteration_fetched _ _ _ _ Hit). simpl.
      by apply prefix_cons.
    + exists (evs ++ evs0), ev. split; [by rewrite app_assoc|]. split; [done|].
      apply Forall_app. split; [by eapply Iteration_continue | done].
Qed.

(** Each candidate yields at most one summary, linked to the submission
    fetched for it, and the summaries come in candidate order. *)
Lemma LoopRun_provenance ids acc evs initial :
  LoopRun q ids acc evs (inr initial) ->
  exists per : list (option Summary),
    length per = length ids /\
    initial = acc ++ omap id per /\
    forall i cand s,
      ids !! i = Some cand -> per !! i = Some (Some s) ->
      exists sub, EvFetch cand (inr sub) ∈ evs /\ source_link s = postLinkOf sub.
Proof.
  remember (inr initial) as r eqn:Er. intros Hrun. revert initial Er.
  induction Hrun as [acc| |cand rest acc evs acc' evs' r Hit Hrun IH]; intros initial Er;
    [|discriminate|].
  - injection Er as <-. exists []. rewrite app_nil_r. repeat split; done.
  - destruct (IH _ Er) as (per & Hlen & -> & Hprov).
    assert (Hhead : exists o : option Summary,
               acc' = acc ++ omap id [o] /\
               forall s, o = Some s ->
                 exists sub, EvFetch cand (inr sub) ∈ evs /\ source_link s = postLinkOf sub).
    { inversion Hit; subst; try (exists None; rewrite app_nil_r; by split).
      eexists (Some _). split; [done|]. intros s [= <-].
      exists sub. split; [apply elem_of_cons; by left | done]. }
    destruct Hhead as (o & -> & Ho).
    exists (o :: per). split; [simpl; congruence|]. split.
    + rewrite <- app_assoc. f_equal. by destruct o.
    + intros [|i] c s Hc Hs; simpl in Hc, Hs.
      * injection Hc as <-. injection Hs as ->.
        destruct (Ho _ eq_refl) as (sub & Hin & Hl).
        exists sub. split; [apply elem_of_app; by left | done].
      * destruct (Hprov _ _ _ Hc Hs) as (sub & Hin & Hl).
        exists sub. split; [apply elem_of_app; by right | done].
Qed.

End LoopFacts.

(** ** What a run of the handler looks like *)

Section PostFacts.
Context {World : Type}.
Variable svc : Services World.
Variable cfg : Config.

Lemma googleCustomSearch_run question apiKey cseId (st st' : State World) r :
  googleCustomSearch svc question apiKey cseId st = (r, st') ->
  exists req res, trace st' = trace st ++ [EvSearch req res].
Proof.
  unfold googleCustomSearch, bind. rewrite call_run.
  destruct (googleSearch svc _ (world st)) as [[e|ok code data] w1]; simpl.
  - intros [= <- <-]. by eexists _, _.
  - destruct ok; simpl; intros [= <- <-]; by eexists _, _.
Qed.

Lemma synthesize_run question relevant (st : State World) :
  exists text,
    synthesize svc question relevant st =
    (text,
     {| world := snd (chatCreate svc (synthesisRequestOf question relevant) (world st));
        trace := trace st ++
          [EvSynthesize (synthesisRequestOf question relevant)
             (fst (chatCreate svc (synthesisRequestOf question relevant) (world st)))] |})
    /\ text =
       match fst (chatCreate svc (synthesisRequestOf question relevant) (world st)) with
       | inl _ => "Error occurred while synthesizing the final answer."
       | inr content =>
           Js.orElse (Js.trim <$> content) "Could not synthesize a final answer."
       end.
Proof.
  unfold synthesize, bind. rewrite call_run.
  destruct (chatCreate svc _ (world st)) as [[e|content] w]; simpl; by eexists.
Qed.

Lemma answerFrom_run question initial (st st' : State World) response :
  answerFrom svc question initial st = (response, st') ->
  exists evs, trace st' = trace st ++ evs /\ Forall (fun ev => ~ isAuthFailure ev) evs.
Proof.
  unfold answerFrom. destruct (length (filterRelevant initial) =? 0)%nat.
  - intros [= <- <-]. exists []. by rewrite app_nil_r.
  - unfold bind.
    destruct (synthesize_run question (filterRelevant initial) st) as (text & -> & _).
    intros [= <- <-]. simpl. eexists. split; [done|].
    constructor; [|constructor]. intros (e & Hf & _). discriminate.
Qed.

Lemma POST_reaches request (st : State World) question ids st1 initial st2 :
  reachesFiltering svc cfg request st question ids st1 initial st2 ->
  POST svc cfg request st = answerFrom svc question initial st2.
Proof.
  intros (apiKey & cseId & -> & Hq & Hk & Hc & Hkt & Hct & Hsearch & Hids & Hloop).
  unfold POST. destruct question as [|c question]; [discriminate|].
  rewrite Hk, Hc, Hkt, Hct. simpl. unfold bind at 1. rewrite Hsearch.
  destruct (Nat.eqb_spec (length ids) 0) as [Hz|_].
  { by destruct ids. }
  unfold bind at 1. by rewrite Hloop.
Qed.

(** Every call of a run is recorded after the calls made before it; a
    call rejected with 401 ends the run with the authentication error. *)
Lemma POST_events request (st st' : State World) response :
  POST svc cfg request st = (response, st') ->
  exists evs,
    trace st' = trace st ++ evs /\
    (Forall (fun ev => ~ isAuthFailure ev) evs \/
     (response = authFailureResponse /\
      exists evs0 ev, evs = evs0 ++ [ev] /\ isAuthFailure ev /\
                      Forall (fun ev => ~ isAuthFailure ev) evs0)).
Proof.
  assert (Hnone : forall r, (r, st) = (response, st') ->
    exists evs, trace st' = trace st ++ evs /\
      (Forall (fun ev => ~ isAuthFailure ev) evs \/
       (response = authFailureResponse /\
        exists evs0 ev, evs = evs0 ++ [ev] /\ isAuthFailure ev /\
                        Forall (fun ev => ~ isAuthFailure ev) evs0))).
  { intros r [= <- <-]. exists []. rewrite app_nil_r. split; [done | by left]. }
  unfold POST. destruct request as [e|[[|c question]|]]; try apply Hnone.
  destruct (GOOGLE_API_KEY cfg) as [apiKey|]; [|apply Hnone].
  destruct (GOOGLE_CSE_ID cfg) as [cseId|]; [|apply Hnone].
  destruct (Js.truthy apiKey && Js.truthy cseId); [|apply Hnone].
  clear Hnone. unfold bind at 1.
  destruct (googleCustomSearch svc _ apiKey cseId st) as [found st1] eqn:Hsearch.
  destruct (googleCustomSearch_run _ _ _ _ _ _ Hsearch) as (req & res & Htr1).
  assert (Hsearch_ev : Forall (fun ev => ~ isAuthFailure ev) [EvSearch req res]).
  { constructor; [|constructor]. intros (e & Hf & _). discriminate. }
  destruct found as [resp1|ids].
  { intros [= <- <-]. eexists. split; [done | by left]. }
  destruct (length ids =? 0)%nat.
  { intros [= <- <-]. eexists. split; [done | by left]. }
  unfold bind at 1.
  destruct (fetchAndSummarize svc _ ids [] st1) as [r st2] eqn:Hloop.
  destruct (fetchAndSummarize_run _ _ _ _ _ _ _ Hloop) as (evs2 & Htr2 & Hrun).
  destruct r as [resp2|initial].
  - intros [= <- <-].
    destruct (LoopRun_return _ _ _ _ _ Hrun) as (-> & _ & evs0 & ev & -> & Hauth & Hall).
    exists ([EvSearch req res] ++ evs0 ++ [ev]). split.
    + by rewrite Htr2, Htr1, <- app_assoc.
    + right. split; [done|]. exists ([EvSearch req res] ++ evs0), ev.
      split; [by rewrite <- app_assoc|]. split; [done|].
      apply Forall_app. by split.
  - intros Hans. destruct (answerFrom_run _ _ _ _ _ Hans) as (evs3 & Htr3 & Hall3).
    destruct (LoopRun_continue _ _ _ _ _ Hrun) as [_ Hall2].
    exists ([EvSearch req res] ++ evs2 ++ evs3). split.
    + by rewrite Htr3, Htr2, Htr1, <- !app_assoc.
    + left. apply Forall_app. split; [done|]. apply Forall_app. by split.
Qed.

End PostFacts.

(** * Properties of the specification *)

(** C1. Whenever N >= 1 relevant summaries survive filtering and go into
    the synthesis, the response's confidenceScore is min(50 + 10*N, 95);
    one source gives 60, three give 80, and no count exceeds 95. *)
Theorem C1_confidence_score {World} (svc : Services World) (cfg : Config)
    (request : RequestBody) (st : State World) (question : string)
    (ids : list string) (st1 : State World) (initial : list Summary)
    (st2 : State World) :
  reachesFiltering svc cfg request st question ids st1 initial st2 ->
  (1 <= length (filterRelevant initial))%nat ->
  (exists finalSummary sources st3,
     POST svc cfg request st =
       (json (AnswerBody finalSummary sources
                (Z.min (50 + 10 * Z.of_nat (length (filterRelevant initial))) 95)),
        st3) /\
     length sources = length (filterRelevant initial)) /\
  calculateConfidence 1 = 60 /\
  calculateConfidence 3 = 80 /\
  (forall n, calculateConfidence n = Z.min (50 + 10 * n) 95) /\
  (forall n, calculateConfidence n <= 95).
Proof.
  intros Hrun Hn. split.
  - rewrite (POST_reaches _ _ _ _ _ _ _ _ _ Hrun). unfold answerFrom.
    destruct (Nat.eqb_spec (length (filterRelevant initial)) 0) as [Hz|_]; [lia|].
    unfold bind.
    destruct (synthesize_run svc question (filterRelevant initial) st2) as (text & -> & _).
    eexists text, _, _. split.
    + unfold calculateConfidence. rewrite length_map.
      replace (50 + Z.of_nat (length (filterRelevant initial)) * 10)
        with (50 + 10 * Z.of_nat (length (filterRelevant initial))) by lia.
      reflexivity.
    + by rewrite length_map.
  - repeat split; try reflexivity; intros n; unfold calculateConfidence;
      [f_equal|]; lia.
Qed.

(** C3. When the search succeeds but yields no candidate identifier, the
    handler returns exactly the fixed "could not find" answer with no
    sources and confidence 0, and the search is the only call it made. *)
Theorem C3_no_candidates {World} (svc : Services World) (cfg : Config)
    (st : State World) (question apiKey cseId : string)
    (code : Z) (data : GoogleData) (w1 : World) :
  Js.truthy question = true ->
  GOOGLE_API_KEY cfg = Some apiKey -> GOOGLE_CSE_ID cfg = Some cseId ->
  Js.truthy apiKey = true -> Js.truthy cseId = true ->
  googleSearch svc
    {| key := apiKey; cx := cseId; q := question +:+ " reddit";
       num := MAX_GOOGLE_RESULTS_TO_CHECK |} (world st)
  = (SearchReply true code data, w1) ->
  submissionIdsOf data = [] ->
  POST svc cfg (BodyJson (Some question)) st =
  (json (AnswerBody
           "Could not find relevant Reddit discussions via Google for this question."
           [] 0),
   {| world := w1;
      trace := trace st ++
        [EvSearch {| key := apiKey; cx := cseId; q := question +:+ " reddit";
                     num := MAX_GOOGLE_RESULTS_TO_CHECK |}
                  (SearchReply true code data)] |}).
Proof.
  intros Hq Hk Hc Hkt Hct Hsearch Hnone.
  unfold POST. destruct question as [|c question]; [discriminate|].
  rewrite Hk, Hc, Hkt, Hct. simpl (true && true). cbv iota.
  unfold googleCustomSearch, bind. rewrite call_run, Hsearch.
  simpl. by rewrite Hnone.
Qed.

(** C4. When candidates were found but no summary passes the relevance
    filter, the handler returns the fixed "found discussions but couldn't
    extract direct answers" answer with no sources and confidence 15, and
    the run contains no synthesis call. *)
Theorem C4_no_relevant_summary {World} (svc : Services World) (cfg : Config)
    (request : RequestBody) (st : State World) (question : string)
    (ids : list string) (st1 : State World) (initial : list Summary)
    (st2 : State World) :
  reachesFiltering svc cfg request st question ids st1 initial st2 ->
  filterRelevant initial = [] ->
  POST svc cfg request st =
    (json (AnswerBody
             "Found some Reddit discussions via Google, but couldn't extract direct answers."
             [] 15),
     st2) /\
  exists evs, trace st2 = trace st ++ evs /\
              Forall (fun ev => isSynthesize ev = false) evs.
Proof.
  intros Hrun Hnone. split.
  - rewrite (POST_reaches _ _ _ _ _ _ _ _ _ Hrun). unfold answerFrom.
    by rewrite Hnone.
  - destruct Hrun as (apiKey & cseId & _ & _ & _ & _ & _ & _ & Hsearch & _ & Hloop).
    destruct (googleCustomSearch_run _ _ _ _ _ _ _ Hsearch) as (req & res & Htr1).
    destruct (fetchAndSummarize_run _ _ _ _ _ _ _ Hloop) as (evs & Htr2 & Hlr).
    exists ([EvSearch req res] ++ evs). split.
    + by rewrite Htr2, Htr1, <- app_assoc.
    + apply Forall_app. split; [by repeat constructor|].
      by eapply LoopRun_no_synthesize.
Qed.

(** C5. A summary is relevant exactly when its lower-cased text contains
    none of the seven marker strings; a summary containing "is not about"
    in any letter case is excluded whatever surrounds it; and the filter
    returns the order-preserved subsequence of the relevant summaries (the
    greatest one: it contains every subsequence made of relevant
    summaries). *)
Theorem C5_relevance_filter :
  (forall text,
     isSummaryRelevant text = true <->
     forall kw, kw ∈ IRRELEVANT_SUMMARY_KEYWORDS -> ~ contains (Js.toLowerCase text) kw) /\
  length IRRELEVANT_SUMMARY_KEYWORDS = 7%nat /\
  (forall before marker after,
     Js.toLowerCase marker = "is not about" ->
     isSummaryRelevant (before +:+ marker +:+ after) = false) /\
  (forall summaries,
     filterRelevant summaries `sublist_of` summaries /\
     (forall s, s ∈ filterRelevant summaries <->
                s ∈ summaries /\ isSummaryRelevant (summary s) = true) /\
     (forall kept,
        kept `sublist_of` summaries ->
        Forall (fun s => isSummaryRelevant (summary s) = true) kept ->
        kept `sublist_of` filterRelevant summaries)).
Proof.
  assert (Hiff : forall text,
     isSummaryRelevant text = true <->
     forall kw, kw ∈ IRRELEVANT_SUMMARY_KEYWORDS -> ~ contains (Js.toLowerCase text) kw).
  { intros text. unfold isSummaryRelevant. cbv zeta.
    rewrite negb_true_iff, some_false. unfold contains.
    split; intros H kw Hkw.
    - rewrite <- includes_spec, (H kw Hkw). discriminate.
    - specialize (H kw Hkw). rewrite <- includes_spec in H.
      by destruct (Js.includes (Js.toLowerCase text) kw). }
  split; [exact Hiff|]. split; [reflexivity|]. split.
  - intros before marker after Hm.
    destruct (isSummaryRelevant (before +:+ marker +:+ after)) eqn:E; [|done].
    apply Hiff with (kw := "is not about") in E.
    + exfalso. apply E.
      exists (Js.toLowerCase before), (Js.toLowerCase after).
      by rewrite !toLowerCase_app, Hm.
    + unfold IRRELEVANT_SUMMARY_KEYWORDS. apply elem_of_cons. right.
      apply elem_of_cons. by left.
  - intros summaries. split; [apply filterRelevant_sublist|].
    split; [apply filterRelevant_elem | apply filterRelevant_greatest].
Qed.

(** C6. The candidate identifiers drawn from a search reply contain no
    duplicate, number at most five (the loop stops as soon as it holds
    five), stand in the order of their first occurrence among the results
    looked at, and each comes from a result whose link contains
    "reddit.com" and has the shape reddit.com/r/<subforum>/comments/<id>
    with an identifier of 6 to 10 letters or digits. *)
Theorem C6_candidate_identifiers (data : GoogleData) :
  NoDup (submissionIdsOf data) /\
  (length (submissionIdsOf data) <= 5)%nat /\
  (exists processed rest,
     default [] (items data) = processed ++ rest /\
     (rest = [] \/ length (submissionIdsOf data) = 5%nat) /\
     (forall id, id ∈ submissionIdsOf data <-> id ∈ extractedIds processed) /\
     firstOccurrenceOrder (submissionIdsOf data) (extractedIds processed)) /\
  (forall id, id ∈ submissionIdsOf data ->
     exists item l,
       item ∈ default [] (items data) /\ link item = Some l /\
       Js.includes l "reddit.com" = true /\
       extractRedditSubmissionId l = Some id /\
       submissionUrlShape l id).
Proof.
  assert (Hspec : exists processed rest,
     default [] (items data) = processed ++ rest /\
     collected (submissionIdsOf data) (extractedIds processed) /\
     (length (submissionIdsOf data) <= 5)%nat /\
     (rest = [] \/ length (submissionIdsOf data) = 5%nat)).
  { unfold submissionIdsOf. destruct (items data) as [[|item results]|]; simpl default.
    - exists [], []. repeat split; try apply collected_nil; simpl; [lia | by left].
    - destruct (collectIds_spec (item :: results) [] [] collected_nil)
        as (processed & rest & Hsplit & Hcol & Hlen & Hrest).
      { unfold MAX_REDDIT_POSTS_TO_PROCESS. simpl. lia. }
      by exists processed, rest.
    - exists [], []. repeat split; try apply collected_nil; simpl; [lia | by left]. }
  destruct Hspec as (processed & rest & Hsplit & [Hnd Hmem Hord] & Hlen & Hrest).
  split; [done|]. split; [done|]. split.
  - by exists processed, rest.
  - intros id Hid. apply Hmem in Hid. unfold extractedIds in Hid.
    apply list_elem_of_omap in Hid as (item & Hitem & Hcand).
    destruct (candidateId_spec _ _ Hcand) as (l & Hl & Hinc & Hex).
    exists item, l. split.
    + rewrite Hsplit. apply elem_of_app. by left.
    + repeat split; try done. by apply extract_shape.
Qed.

(** C7. The excerpt selector keeps the first three comments of the list
    obtained by sorting the thread's comments by descending score, where a
    missing score counts as 0 and comments of equal effective score keep
    their input order; that sorted list is the only arrangement of the
    comments that is descending and keeps equal scores in input order. *)
Theorem C7_top_comments (cs : list Comment) :
  exists sorted,
    topCommentsOf cs = take 3 sorted /\
    Permutation sorted cs /\
    StronglySorted scoreDescending sorted /\
    (forall v, withScore v sorted = withScore v cs) /\
    (forall other,
       StronglySorted scoreDescending other ->
       (forall v, withScore v other = withScore v cs) ->
       other = sorted) /\
    (forall c, scoreOr0 c = match score c with Some n => n | None => 0 end).
Proof.
  exists (Arr.sort byScoreDesc cs). split; [reflexivity|].
  split; [apply sort_perm|]. split; [apply sort_sorted|].
  split; [intros v; apply sort_withScore|]. split; [|by intros [b [n|]]].
  intros other Hsorted Hstable.
  apply stable_sorted_unique; [done | apply sort_sorted |].
  intros v. by rewrite Hstable, sort_withScore.
Qed.

(** C8. Once at least one relevant summary reaches the synthesis, the
    handler answers with status 200, the relevant source links and the
    confidence computed from their number, whatever the synthesis call
    does: if the call fails the final summary is "Error occurred while
    synthesizing the final answer.", if the model returns nothing or only
    blanks it is "Could not synthesize a final answer.". *)
Theorem C8_synthesis_degrades {World} (svc : Services World) (cfg : Config)
    (request : RequestBody) (st : State World) (question : string)
    (ids : list string) (st1 : State World) (initial : list Summary)
    (st2 : State World) :
  reachesFiltering svc cfg request st question ids st1 initial st2 ->
  filterRelevant initial <> [] ->
  exists finalSummary st3,
    POST svc cfg request st =
      (json (AnswerBody finalSummary
               (map source_link (filterRelevant initial))
               (calculateConfidence (Z.of_nat (length (filterRelevant initial))))),
       st3) /\
    trace st3 = trace st2 ++
      [EvSynthesize (synthesisRequestOf question (filterRelevant initial))
         (fst (chatCreate svc (synthesisRequestOf question (filterRelevant initial))
                 (world st2)))] /\
    (forall e,
       fst (chatCreate svc (synthesisRequestOf question (filterRelevant initial))
              (world st2)) = inl e ->
       finalSummary = "Error occurred while synthesizing the final answer.") /\
    (forall content,
       fst (chatCreate svc (synthesisRequestOf question (filterRelevant initial))
              (world st2)) = inr content ->
       Js.orElse (Js.trim <$> content) "" = "" ->
       finalSummary = "Could not synthesize a final answer.").
Proof.
  intros Hrun Hrel.
  rewrite (POST_reaches _ _ _ _ _ _ _ _ _ Hrun). unfold answerFrom.
  destruct (Nat.eqb_spec (length (filterRelevant initial)) 0) as [Hz|_].
  { destruct (filterRelevant initial); [done | discriminate]. }
  unfold bind.
  destruct (synthesize_run svc question (filterRelevant initial) st2) as (text & -> & Htext).
  eexists text, _. split; [by rewrite length_map|]. split; [done|]. split.
  - intros e He. by rewrite He in Htext.
  - intros content Hc Hempty. rewrite Hc in Htext. rewrite Htext.
    destruct content as [c|]; simpl in *; [|done].
    destruct (Js.trim c); simpl in *; [done | discriminate].
Qed.

(** C9. In every run that gets past the candidate loop, each candidate
    yields at most one summary, linked to the submission fetched for that
    candidate, and the summaries stand in candidate (discovery) order; the
    relevant summaries are an order-preserved sub-list of them, and the
    response lists their links in that order. *)
Theorem C9_sources_in_discovery_order {World} (svc : Services World) (cfg : Config)
    (request : RequestBody) (st : State World) (question : string)
    (ids : list string) (st1 : State World) (initial : list Summary)
    (st2 : State World) :
  reachesFiltering svc cfg request st question ids st1 initial st2 ->
  (exists finalSummary confidenceScore st3,
     POST svc cfg request st =
       (json (AnswerBody finalSummary
                (map source_link (filterRelevant initial)) confidenceScore),
        st3)) /\
  filterRelevant initial `sublist_of` initial /\
  map source_link (filterRelevant initial) `sublist_of` map source_link initial /\
  exists (per : list (option Summary)) (evs : list Event),
    trace st2 = trace st1 ++ evs /\
    length per = length ids /\
    initial = omap id per /\
    forall i cand s,
      ids !! i = Some cand -> per !! i = Some (Some s) ->
      exists sub, EvFetch cand (inr sub) ∈ evs /\ source_link s = postLinkOf sub.
Proof.
  intros Hrun. split; [|split; [|split]].
  - rewrite (POST_reaches _ _ _ _ _ _ _ _ _ Hrun). unfold answerFrom.
    destruct (Nat.eqb_spec (length (filterRelevant initial)) 0) as [Hz|_].
    + destruct (filterRelevant initial); [|discriminate]. by eexists _, _, _.
    + unfold bind.
      destruct (synthesize_run svc question (filterRelevant initial) st2) as (text & -> & _).
      by eexists _, _, _.
  - apply filterRelevant_sublist.
  - apply sublist_map, filterRelevant_sublist.
  - destruct Hrun as (apiKey & cseId & _ & _ & _ & _ & _ & _ & _ & _ & Hloop).
    destruct (fetchAndSummarize_run _ _ _ _ _ _ _ Hloop) as (evs & Htr & Hlr).
    destruct (LoopRun_provenance _ _ _ _ _ Hlr) as (per & Hlen & Hinit & Hprov).
    by exists per, evs.
Qed.

(** C10. Sorting and truncating a non-empty comment list leaves
    min(3, length) >= 1 comments, so the check for an empty [topComments]
    never fires: an iteration whose fetch returned a non-empty comment
    array goes on to call the summariser with those top comments. *)
Theorem C10_top_comments_nonempty {World} (svc : Services World)
    (question submissionId : string) (acc : list Summary) (st : State World)
    (submission : Submission) (cs : list Comment) :
  fst (getSubmission svc submissionId (world st)) = inr submission ->
  comments submission = Some cs ->
  cs <> [] ->
  length (topCommentsOf cs) = Nat.min 3 (length cs) /\
  topCommentsOf cs <> [] /\
  exists outcome,
    trace (snd (loopBody svc question submissionId acc st)) =
    trace st ++
      [EvFetch submissionId (inr submission);
       EvSummarize (summaryRequestOf question submission (topCommentsOf cs)) outcome].
Proof.
  intros Hfetch Hcs Hne.
  pose proof (topCommentsOf_length cs) as Hlen.
  unfold MAX_COMMENTS_PER_POST in Hlen.
  assert (Hpos : (1 <= length cs)%nat) by (destruct cs; [done | simpl; lia]).
  split; [done|]. split.
  { intros Hnil. rewrite Hnil in Hlen. simpl length in Hlen. lia. }
  unfold loopBody, bind. rewrite call_run.
  destruct (getSubmission svc submissionId (world st)) as [fres w1].
  simpl in Hfetch. subst fres. simpl. rewrite Hcs.
  destruct cs as [|c cs]; [done|].
  destruct (Nat.eqb_spec (length (topCommentsOf (c :: cs))) 0) as [Hz|_]; [lia|].
  rewrite call_run. simpl.
  destruct (chatCreate svc _ w1) as [[e|content] w2]; simpl.
  - rewrite loopCatch_run. simpl. eexists. by rewrite <- app_assoc.
  - destruct content as [text|]; simpl; [destruct (Js.truthy (Js.trim text))|];
      simpl; eexists; by rewrite <- app_assoc.
Qed.

(** C2 (as the code has it). A per-candidate call, forum fetch or model
    call, that fails with an error whose [statusCode] is 401 ends the
    request at once with the 401 "Reddit authentication failed." error: it
    is the last call of the run.  Any other failure of such a call leaves
    the summaries untouched (the candidate is skipped), and unless a 401
    occurs the loop fetches every candidate identifier in order. *)
Theorem C2_statusCode_401_aborts_else_skip {World} (svc : Services World) (cfg : Config) :
  (forall request st response st',
     POST svc cfg request st = (response, st') ->
     exists evs,
       trace st' = trace st ++ evs /\
       forall ev, ev ∈ evs -> isAuthFailure ev ->
                  response = authFailureResponse /\ last evs = Some ev) /\
  (forall question submissionId acc st r st',
     loopBody svc question submissionId acc st = (r, st') ->
     exists evs,
       trace st' = trace st ++ evs /\
       forall ev e, ev ∈ evs -> failedWith ev = Some e ->
                    statusCode e <> Some 401 -> r = inr acc) /\
  (forall question ids acc st r st',
     fetchAndSummarize svc question ids acc st = (r, st') ->
     exists evs,
       trace st' = trace st ++ evs /\
       ((exists ev, ev ∈ evs /\ isAuthFailure ev) \/
        (fetchedIds evs = ids /\ exists initial, r = inr initial))).
Proof.
  split; [|split].
  - intros request st response st' Hpost.
    destruct (POST_events _ _ _ _ _ _ Hpost) as (evs & Htr & Hcase).
    exists evs. split; [done|]. intros ev Hin Hauth.
    destruct Hcase as [Hall | (-> & evs0 & ev0 & -> & Hauth0 & Hall)].
    + rewrite Forall_forall in Hall. by destruct (Hall ev Hin).
    + split; [done|]. rewrite last_snoc.
      apply elem_of_app in Hin as [Hin | ->%list_elem_of_singleton]; [|done].
      rewrite Forall_forall in Hall. by destruct (Hall ev Hin).
  - intros question submissionId acc st r st' Hbody.
    destruct (loopBody_iteration _ _ _ _ _ _ _ Hbody) as (evs & Htr & Hit).
    exists evs. split; [done|]. intros ev e Hin Hf Hne.
    by eapply Iteration_skip.
  - intros question ids acc st r st' Hloop.
    destruct (fetchAndSummarize_run _ _ _ _ _ _ _ Hloop) as (evs & Htr & Hrun).
    exists evs. split; [done|]. destruct r as [response|initial].
    + left. destruct (LoopRun_return _ _ _ _ _ Hrun) as (_ & _ & evs0 & ev & -> & Hauth & _).
      exists ev. split; [|done]. apply elem_of_app. right. by apply list_elem_of_singleton.
    + right. destruct (LoopRun_continue _ _ _ _ _ Hrun) as [Hids _]. split; [done|].
      by exists initial.
Qed.

(** * The properties on scripted runs *)

(** Discharges [reachesFiltering] for a scripted run by evaluation. *)
Ltac demo_reaches :=
  exists "key", "cse";
  repeat split; try discriminate; vm_compute; reflexivity.

(** In the run of [Demo.svcModelRejected] the model client rejects the
    credentials of every summarising call (an error with [status] 401),
    yet the request is not aborted with an authentication error: the
    candidates are skipped and the handler answers with status 200. *)
Lemma C2_counterexample :
  exists ev e,
    ev ∈ trace (snd (POST Demo.svcModelRejected Demo.cfg Demo.request Demo.st0)) /\
    failedWith ev = Some e /\
    isCredentialRejection e /\
    fst (POST Demo.svcModelRejected Demo.cfg Demo.request Demo.st0) =
    json (AnswerBody
            "Found some Reddit discussions via Google, but couldn't extract direct answers."
            [] 15).
Proof.
  exists (EvSummarize
            (summaryRequestOf Demo.question (Demo.thread "abc123")
               (topCommentsOf Demo.fourComments))
            Demo.modelRejected),
         (Demo.failure None (Some 401)).
  split; [|split; [reflexivity | split; [by right | vm_compute; reflexivity]]].
  vm_compute. do 2 apply list_elem_of_further. apply list_elem_of_here.
Qed.

(** Reddit rejects the credentials at the second candidate: the request
    ends with the authentication error. *)
Lemma C2_witness :
  fst (POST Demo.svcRedditRejected Demo.cfg Demo.request Demo.st0) = authFailureResponse.
Proof.
  assert (Hrun : POST Demo.svcRedditRejected Demo.cfg Demo.request Demo.st0 =
                 (fst (POST Demo.svcRedditRejected Demo.cfg Demo.request Demo.st0),
                  snd (POST Demo.svcRedditRejected Demo.cfg Demo.request Demo.st0)))
    by (vm_compute; reflexivity).
  destruct (proj1 (C2_statusCode_401_aborts_else_skip Demo.svcRedditRejected Demo.cfg)
              _ _ _ _ Hrun) as (evs & Htr & Habort).
  apply (Habort (EvFetch "def4567" (inl (Demo.failure (Some 401) None)))).
  - change (trace Demo.st0 ++ evs) with evs in Htr. rewrite <- Htr.
    vm_compute. do 3 apply list_elem_of_further. apply list_elem_of_here.
  - exists (Demo.failure (Some 401) None). by split.
Defined.

(** Three threads, three relevant summaries: confidence 80. *)
Lemma C1_witness :
  exists finalSummary sources st3,
    POST Demo.svcOk Demo.cfg Demo.request Demo.st0 =
      (json (AnswerBody finalSummary sources 80), st3) /\
    length sources = 3%nat.
Proof.
  assert (Hreach : reachesFiltering Demo.svcOk Demo.cfg Demo.request Demo.st0
            Demo.question Demo.ids (Demo.st1 Demo.svcOk)
            (Demo.summariesOf "Read the book and write code.") (Demo.st2 Demo.svcOk))
    by demo_reaches.
  assert (Hn : (1 <= length (filterRelevant
                   (Demo.summariesOf "Read the book and write code.")))%nat)
    by (vm_compute; lia).
  exact (proj1 (C1_confidence_score _ _ _ _ _ _ _ _ _ Hreach Hn)).
Defined.

(** A search reply without any thread link. *)
Lemma C3_witness :
  POST Demo.svcNothingFound Demo.cfg Demo.request Demo.st0 =
  (json (AnswerBody
           "Could not find relevant Reddit discussions via Google for this question."
           [] 0),
   {| world := tt;
      trace := [EvSearch {| key := "key"; cx := "cse"; q := "how to learn rust reddit";
                            num := 10 |}
                         Demo.nothingFound] |}).
Proof.
  apply (C3_no_candidates Demo.svcNothingFound Demo.cfg Demo.st0 Demo.question
           "key" "cse" 200 Demo.noThreads tt); vm_compute; reflexivity.
Defined.

(** Every summary reports that its thread is off topic. *)
Lemma C4_witness :
  POST Demo.svcOffTopic Demo.cfg Demo.request Demo.st0 =
    (json (AnswerBody
             "Found some Reddit discussions via Google, but couldn't extract direct answers."
             [] 15),
     Demo.st2 Demo.svcOffTopic) /\
  exists evs, trace (Demo.st2 Demo.svcOffTopic) = trace Demo.st0 ++ evs /\
              Forall (fun ev => isSynthesize ev = false) evs.
Proof.
  apply (C4_no_relevant_summary Demo.svcOffTopic Demo.cfg Demo.request Demo.st0
           Demo.question Demo.ids (Demo.st1 Demo.svcOffTopic)
           (Demo.summariesOf "This thread is not relevant to the question.")).
  - demo_reaches.
  - vm_compute; reflexivity.
Defined.

(** The synthesis call throws; the sources and the score are still returned. *)
Lemma C8_witness :
  exists st3,
    POST Demo.svcSynthesisFails Demo.cfg Demo.request Demo.st0 =
    (json (AnswerBody "Error occurred while synthesizing the final answer."
             [ "https://reddit.com/r/x/comments/abc123/";
               "https://reddit.com/r/x/comments/def4567/";
               "https://reddit.com/r/x/comments/ghi89012/" ]
             80),
     st3).
Proof.
  assert (Hreach : reachesFiltering Demo.svcSynthesisFails Demo.cfg Demo.request Demo.st0
            Demo.question Demo.ids (Demo.st1 Demo.svcSynthesisFails)
            (Demo.summariesOf "Read the book and write code.")
            (Demo.st2 Demo.svcSynthesisFails))
    by demo_reaches.
  assert (Hrel : filterRelevant (Demo.summariesOf "Read the book and write code.") <> [])
    by (vm_compute; discriminate).
  destruct (C8_synthesis_degrades _ _ _ _ _ _ _ _ _ Hreach Hrel)
    as (finalSummary & st3 & Hpost & _ & Herror & _).
  exists st3. rewrite Hpost.
  rewrite (Herror (Demo.failure None (Some 401))); [|vm_compute; reflexivity].
  vm_compute. reflexivity.
Defined.

(** The sources come back in the order of the search results. *)
Lemma C9_witness :
  exists finalSummary confidenceScore st3,
    POST Demo.svcOk Demo.cfg Demo.request Demo.st0 =
    (json (AnswerBody finalSummary
             [ "https://reddit.com/r/x/comments/abc123/";
               "https://reddit.com/r/x/comments/def4567/";
               "https://reddit.com/r/x/comments/ghi89012/" ]
             confidenceScore),
     st3).
Proof.
  assert (Hreach : reachesFiltering Demo.svcOk Demo.cfg Demo.request Demo.st0
            Demo.question Demo.ids (Demo.st1 Demo.svcOk)
            (Demo.summariesOf "Read the book and write code.") (Demo.st2 Demo.svcOk))
    by demo_reaches.
  exact (proj1 (C9_sources_in_discovery_order _ _ _ _ _ _ _ _ _ Hreach)).
Defined.

(** Four comments give three top comments and a summarising call. *)
Lemma C10_witness :
  length (topCommentsOf Demo.fourComments) = 3%nat /\
  topCommentsOf Demo.fourComments <> [] /\
  exists outcome,
    trace (snd (loopBody Demo.svcOk Demo.question "abc123" [] Demo.st0)) =
    trace Demo.st0 ++
      [EvFetch "abc123" (inr (Demo.thread "abc123"));
       EvSummarize
         (summaryRequestOf Demo.question (Demo.thread "abc123")
            (topCommentsOf Demo.fourComments))
         outcome].
Proof.
  apply (C10_top_comments_nonempty Demo.svcOk Demo.question "abc123" [] Demo.st0
           (Demo.thread "abc123") Demo.fourComments).
  - vm_compute; reflexivity.
  - reflexivity.
  - discriminate.
Defined.

(** * Worked examples *)

Example trim_ex : Js.trim "  a b
 " = "a b".
Proof. reflexivity. Qed.

(** The no-break space is white space. *)
Example trim_nbsp_ex :
  Js.trim (String "160" " a" +:+ String "160" "b " +:+ String "160" "") =
  "a" +:+ String "160" "b".
Proof. reflexivity. Qed.

(** A synthesis reply of white space only gives the fixed text. *)
Example blank_synthesis_ex :
  payload (fst (POST Demo.svcBlankSynthesis Demo.cfg Demo.request Demo.st0)) =
  AnswerBody "Could not synthesize a final answer."
    ["https://reddit.com/r/x/comments/abc123/"; "https://reddit.com/r/x/comments/def4567/";
     "https://reddit.com/r/x/comments/ghi89012/"] 80.
Proof. vm_compute. reflexivity. Qed.

(** Summaries of white space only are skipped: nothing is left to answer
    from, and no synthesis call is made. *)
Example blank_summaries_ex :
  payload (fst (POST Demo.svcBlankSummaries Demo.cfg Demo.request Demo.st0)) =
  AnswerBody "Found some Reddit discussions via Google, but couldn't extract direct answers."
    [] 15 /\
  count isSynthesize (trace (snd (POST Demo.svcBlankSummaries Demo.cfg Demo.request Demo.st0)))
  = 0%nat.
Proof. split; vm_compute; reflexivity. Qed.

Example num_ex : Js.numToString 12 = "12" /\ Js.numToString 0 = "0".
Proof. split; reflexivity. Qed.

Example rel_ex : isSummaryRelevant "This thread IS NOT about cats" = false.
Proof. reflexivity. Qed.

Example extract_ex1 :
  extractRedditSubmissionId "https://www.reddit.com/r/rust/comments/abc123/some_title/" = Some "abc123".
Proof. reflexivity. Qed.
Example extract_ex2 :
  extractRedditSubmissionId "https://www.Reddit.com/R/rust/Comments/ABC1234567" = Some "ABC1234567".
Proof. reflexivity. Qed.
Example extract_ex3 :
  extractRedditSubmissionId "https://www.reddit.com/r/rust/comments/abc12345678/" = None.
Proof. reflexivity. Qed.
Example extract_ex4 :
  extractRedditSubmissionId "https://www.reddit.com/r/rust/comments/abc12/" = None.
Proof. reflexivity. Qed.
Example extract_ex5 :
  extractRedditSubmissionId "reddit.com/r//comments/abc123 reddit.com/r/a/comments/xyz7890?x" = None.
Proof. reflexivity. Qed.
Example extract_ex6 :
  extractRedditSubmissionId "reddit.com/r/a/comments/zzz reddit.com/r/b/comments/xyz7890" = Some "xyz7890".
Proof. reflexivity. Qed.

(** One of three threads cannot be fetched (404): the other two are
    summarised and the answer has confidence 70. *)
Example one_thread_missing :
  fst (POST (Demo.scripted Demo.found Demo.fetchOneMissing
               (Demo.chatWith Demo.helpful Demo.answer))
         Demo.cfg Demo.request Demo.st0) =
  json (AnswerBody "## Start with the book"
          [ "https://reddit.com/r/x/comments/abc123/";
            "https://reddit.com/r/x/comments/ghi89012/" ]
          70).
Proof. vm_compute. reflexivity. Qed.

(** Equal scores keep their input order; a missing score counts as 0. *)
Example top_comments_ex :
  map body (topCommentsOf Demo.fourComments) = ["second"; "fourth"; "first"].
Proof. reflexivity. Qed.

(** The candidates of the scripted search, duplicates removed. *)
Example candidates_ex :
  submissionIdsOf {| error_message := None; items := Some Demo.results |} = Demo.ids.
Proof. vm_compute. reflexivity. Qed.

(** * Further properties of the route *)

(** ** [extractRedditSubmissionId] finds every URL of the expected shape *)

Section ExtractFacts.

Lemma upper_lower (c : ascii) : Js.upperChar (Js.lowerChar c) = Js.upperChar c.
Proof. destruct c as [[] [] [] [] [] [] [] []]; reflexivity. Qed.

Lemma lower_slash (c : ascii) : Js.lowerChar c = "/"%char -> c = "/"%char.
Proof. destruct c as [[] [] [] [] [] [] [] []]; simpl; intros H; try discriminate; done. Qed.

Lemma not_r_upper (c : ascii) :
  Ascii.eqb (Js.lowerChar c) "r" = false -> Ascii.eqb "R" (Js.upperChar c) = false.
Proof. destruct c as [[] [] [] [] [] [] [] []]; simpl; intros H; try discriminate; done. Qed.

Lemma toLowerCase_length (s : string) : String.length (Js.toLowerCase s) = String.length s.
Proof. induction s; simpl; congruence. Qed.

Lemma litMatch_complete (lit : string) :
  forall w s',
    Js.toLowerCase w = Js.toLowerCase lit ->
    litMatch true lit (w +:+ s') = Some s'.
Proof.
  induction lit as [|a lit IH]; intros w s' H.
  - destruct w; [done | discriminate].
  - destruct w as [|b w]; [discriminate|]. simpl in H. injection H as Hc Hw.
    rewrite app_cons_s. simpl. unfold charEq.
    replace (Js.upperChar a) with (Js.upperChar b)
      by (by rewrite <- (upper_lower b), Hc, upper_lower).
    rewrite Ascii.eqb_refl. by apply IH.
Qed.

(** A greedy repetition that can take the whole run [w], and is stopped
    after it by the end of input or a character outside the class, hands
    the continuation exactly what follows [w] when that succeeds. *)
Lemma repeatMatch_greedy {R} (p : ascii -> bool) (s' : string)
    (k : string -> option R) (res : R) :
  (s' = "" \/ exists c t, s' = String c t /\ p c = false) ->
  k s' = Some res ->
  forall w min max,
    allChars p w = true ->
    (min <= String.length w)%nat ->
    (forall m, max = Some m -> (String.length w <= m)%nat) ->
    repeatMatch p min max (w +:+ s') k = Some res.
Proof.
  intros Hstop Hk. induction w as [|a w IH]; intros min max Hall Hmin Hmax.
  - simpl in Hmin. assert (min = 0%nat) as -> by lia. rewrite app_nil_l_s.
    destruct Hstop as [->|(c & t & -> & Hc)]; simpl; [done|]. by rewrite Hc.
  - rewrite app_cons_s. simpl in *. apply andb_true_iff in Hall as [Ha Hall].
    rewrite Ha. simpl.
    assert (Hm : match max with Some 0%nat => false | _ => true end = true).
    { destruct max as [[|m]|]; try done. specialize (Hmax 0%nat eq_refl). lia. }
    rewrite Hm. rewrite IH; [done | done | lia |].
    intros m Hm'. destruct max as [mx|]; [|discriminate]. simpl in Hm'.
    injection Hm' as <-. specialize (Hmax mx eq_refl). lia.
Qed.

Lemma run_seq ic r1 r2 s caps k :
  run ic (RSeq r1 r2) s caps k = run ic r1 s caps (fun s' caps' => run ic r2 s' caps' k).
Proof. reflexivity. Qed.

Lemma run_str ic lit s caps k :
  run ic (RStr lit) s caps k =
  match litMatch ic lit s with Some s' => k s' caps | None => None end.
Proof. reflexivity. Qed.

Lemma run_repeat ic invert items min max s caps k :
  run ic (RRepeat invert items min max) s caps k =
  repeatMatch (setMatch ic invert items) min max s (fun s' => k s' caps).
Proof. reflexivity. Qed.

Lemma run_group ic n r s caps k :
  run ic (RGroup n r) s caps k =
  run ic r s caps (fun s' caps' => k s' ((n, consumed s s') :: caps')).
Proof. reflexivity. Qed.

Lemma run_alt ic r1 r2 s caps k :
  run ic (RAlt r1 r2) s caps k =
  match run ic r1 s caps k with Some res => Some res | None => run ic r2 s caps k end.
Proof. reflexivity. Qed.

(** The closing group [(\/|$)] accepts a slash or the end of the input. *)
Lemma closing_group (post : string) (caps : captures) :
  post = "" \/ Js.startsWith "/" post = true ->
  exists c2,
    run true (RGroup 2 (RAlt (RStr "/") REnd)) post caps (fun _ c => Some c) =
    Some ((2%nat, c2) :: caps).
Proof.
  intros [->|Hp]; rewrite run_group, run_alt, run_str.
  - by eexists.
  - apply startsWith_spec in Hp as (t & ->).
    rewrite (litMatch_complete "/" "/" t eq_refl). by eexists.
Qed.

(** At the start of a text of the expected shape the pattern matches and
    captures the identifier. *)
Lemma pattern_matches_shape (dom sub cm id post : string) :
  Js.toLowerCase dom = "reddit.com/r/" ->
  (1 <= String.length sub)%nat -> allChars notSlash sub = true ->
  Js.toLowerCase cm = "/comments/" ->
  allChars isAlnum id = true ->
  (6 <= String.length id <= 10)%nat ->
  (post = "" \/ Js.startsWith "/" post = true) ->
  exists caps,
    run true submissionIdPattern (dom +:+ sub +:+ cm +:+ id +:+ post) []
      (fun _ c => Some c) = Some caps /\
    capture 1 caps = Some id.
Proof.
  intros Hdom Hsub1 Hsub Hcm Hid Hlen Hpost.
  assert (Hidstop : post = "" \/
            exists c t, post = String c t /\ setMatch true false alnumClass c = false).
  { destruct Hpost as [->|Hp]; [by left | right].
    apply startsWith_spec in Hp as (t & ->). by exists "/"%char, t. }
  assert (Hcmstop : exists c t, cm +:+ id +:+ post = String c t /\
                                setMatch true true [CChar "/"] c = false).
  { destruct cm as [|c cm]; [discriminate|]. simpl in Hcm. injection Hcm as Hc _.
    apply lower_slash in Hc as ->. rewrite app_cons_s. by eexists _, _. }
  destruct (closing_group post [(1%nat, consumed (id +:+ post) post)] Hpost) as (c2 & Hg2).
  exists [(2%nat, c2); (1%nat, consumed (id +:+ post) post)]. split.
  - unfold submissionIdPattern.
    rewrite run_seq, run_str, (litMatch_complete "reddit.com/r/" dom _ Hdom).
    rewrite run_seq, run_repeat.
    apply repeatMatch_greedy; [by right | | | done | by intros m [=]].
    + rewrite run_seq, run_str, (litMatch_complete "/comments/" cm _ Hcm).
      rewrite run_seq, run_group, run_repeat.
      apply repeatMatch_greedy; [exact Hidstop | exact Hg2 | | lia | intros m [= <-]; lia].
      by rewrite (allChars_ext _ _ _ alnumClass_spec).
    + by rewrite (allChars_ext _ _ _ notSlash_spec).
  - simpl. by rewrite consumed_app.
Qed.

Lemma exec_cons ic r c s :
  exec ic r (String c s) =
  match run ic r (String c s) [] (fun _ caps => Some caps) with
  | Some caps => Some caps
  | None => exec ic r s
  end.
Proof. reflexivity. Qed.

Lemma litMatch_cons ic a lit b s :
  litMatch ic (String a lit) (String b s) =
  if charEq ic a b then litMatch ic lit s else None.
Proof. reflexivity. Qed.

Lemma exec_complete (r : regex) (pre s0 : string) (caps : captures) :
  run true r s0 [] (fun _ c => Some c) = Some caps ->
  is_Some (exec true r (pre +:+ s0)).
Proof.
  intros Hrun. induction pre as [|c pre IH].
  - rewrite app_nil_l_s. destruct s0; simpl; by rewrite Hrun.
  - rewrite app_cons_s, exec_cons.
    destruct (run true r (String c (pre +:+ s0)) [] _); [done | exact IH].
Qed.

(** No match starts at a character other than [r] or [R]. *)
Lemma exec_skip (pre s0 : string) :
  allChars (fun c => negb (Ascii.eqb (Js.lowerChar c) "r")) pre = true ->
  exec true submissionIdPattern (pre +:+ s0) = exec true submissionIdPattern s0.
Proof.
  induction pre as [|c pre IH]; [done|]. simpl allChars. intros [Hc Hpre]%andb_true_iff.
  rewrite app_cons_s, exec_cons. unfold submissionIdPattern at 1.
  rewrite run_seq, run_str, litMatch_cons. unfold charEq.
  change (Js.upperChar "r") with "R"%char.
  rewrite not_r_upper by (by apply negb_true_iff). by apply IH.
Qed.

Lemma exec_captures (url : string) (caps : captures) :
  exec true submissionIdPattern url = Some caps -> is_Some (capture 1 caps).
Proof.
  intros E. destruct (exec_sound _ _ _ _ E) as (pre & s0 & s' & -> & HM).
  unfold submissionIdPattern in HM.
  repeat match goal with
         | H : Matches _ (RSeq _ _) _ _ _ _ |- _ => inversion H; subst; clear H
         | H : Matches _ (RStr _) _ _ _ _ |- _ => inversion H; subst; clear H
         | H : Matches _ (RRepeat _ _ _ _) _ _ _ _ |- _ => inversion H; subst; clear H
         | H : Matches _ (RGroup _ _) _ _ _ _ |- _ => inversion H; subst; clear H
         | H : Matches _ (RAlt _ _) _ _ _ _ |- _ => inversion H; subst; clear H
         | H : Matches _ REnd _ _ _ _ |- _ => inversion H; subst; clear H
         end; by eexists.
Qed.

End ExtractFacts.

Lemma exec_here (r : regex) (s : string) (caps : captures) :
  run true r s [] (fun _ c => Some c) = Some caps -> exec true r s = Some caps.
Proof. intros H. destruct s; simpl; by rewrite H. Qed.

(** X1. [extractRedditSubmissionId] returns an identifier exactly for the
    URLs that contain reddit.com/r/<subforum>/comments/<id> (any letter
    case, id of 6 to 10 letters or digits followed by a slash or the end);
    for every other URL it returns null. *)
Theorem extract_iff_shape (url : string) :
  is_Some (extractRedditSubmissionId url) <-> exists id, submissionUrlShape url id.
Proof.
  split.
  - intros [id Hid]. exists id. by apply extract_shape.
  - intros (id & pre & dom & sub & cm & post & -> & Hdom & Hs1 & Hs & Hcm & Hid & Hlen & Hpost).
    destruct (pattern_matches_shape dom sub cm id post) as (caps & Hrun & _); try done.
    destruct (exec_complete _ pre _ _ Hrun) as [caps' Hexec].
    unfold extractRedditSubmissionId. rewrite Hexec. by eapply exec_captures.
Qed.

(** X2. For a URL whose part before the domain contains no letter r (such
    as https://www. or https://old.), followed by reddit.com/r/, a
    subforum, /comments/, an identifier of 6 to 10 letters or digits and
    then a slash or nothing, the function returns that identifier. *)
Theorem extract_round_trip (pre dom sub cm id post : string) :
  allChars (fun c => negb (Ascii.eqb (Js.lowerChar c) "r")) pre = true ->
  Js.toLowerCase dom = "reddit.com/r/" ->
  (1 <= String.length sub)%nat -> allChars notSlash sub = true ->
  Js.toLowerCase cm = "/comments/" ->
  allChars isAlnum id = true ->
  (6 <= String.length id <= 10)%nat ->
  (post = "" \/ Js.startsWith "/" post = true) ->
  extractRedditSubmissionId (pre +:+ dom +:+ sub +:+ cm +:+ id +:+ post) = Some id.
Proof.
  intros Hpre Hdom Hs1 Hs Hcm Hid Hlen Hpost.
  destruct (pattern_matches_shape dom sub cm id post) as (caps & Hrun & Hcap); try done.
  unfold extractRedditSubmissionId.
  by rewrite (exec_skip pre _ Hpre), (exec_here _ _ _ Hrun).
Qed.

Lemma extract_round_trip_witness :
  extractRedditSubmissionId
    ("https://www." +:+ "Reddit.com/r/" +:+ "AskReddit" +:+ "/comments/" +:+ "1abc2de"
     +:+ "/what_is_this/") = Some "1abc2de".
Proof.
  apply extract_round_trip; try (vm_compute; reflexivity).
  - vm_compute; lia.
  - vm_compute; lia.
  - right. vm_compute; reflexivity.
Defined.

(** ** The stages of an accepted request *)

Section StageFacts.
Context {World : Type}.
Variable svc : Services World.
Variable cfg : Config.

(** What the search stage returns and records. *)
Lemma googleCustomSearch_inv question apiKey cseId (st : State World) :
  googleCustomSearch svc question apiKey cseId st =
  (match fst (googleSearch svc (searchRequestOf question apiKey cseId) (world st)) with
   | SearchThrows e =>
       inl (jsonStatus
              (ErrorBody (if isError e then message e
                          else "Failed to perform Google search.")) 500)
   | SearchReply false code data =>
       inl (jsonStatus
              (ErrorBody (Js.orElse (error_message data)
                            ("Google Search API failed with status " +:+ Js.numToString code)))
              500)
   | SearchReply true _ data => inr (submissionIdsOf data)
   end,
   {| world := snd (googleSearch svc (searchRequestOf question apiKey cseId) (world st));
      trace := trace st ++
        [EvSearch (searchRequestOf question apiKey cseId)
           (fst (googleSearch svc (searchRequestOf question apiKey cseId) (world st)))] |}).
Proof.
  unfold googleCustomSearch, bind. rewrite call_run. fold (searchRequestOf question apiKey cseId).
  destruct (googleSearch svc _ (world st)) as [[e|[] code data] w]; reflexivity.
Qed.

(** An accepted request runs the search, then the loop, then the answer. *)
Lemma POST_accepted request (st : State World) :
  isAccepted cfg request = true ->
  POST svc cfg request st =
  let (found, st1) :=
    googleCustomSearch svc (questionOf request) (apiKeyOf cfg) (cseIdOf cfg) st in
  match found with
  | inl response => (response, st1)
  | inr ids =>
      if (length ids =? 0)%nat then
        (json (AnswerBody
                 "Could not find relevant Reddit discussions via Google for this question."
                 [] 0), st1)
      else
        let (r, st2) := fetchAndSummarize svc (questionOf request) ids [] st1 in
        match r with
        | inl response => (response, st2)
        | inr initial => answerFrom svc (questionOf request) initial st2
        end
  end.
Proof.
  assert (Hset : forall v, Js.truthy (Js.orElse v "") = true ->
            exists k, v = Some k /\ Js.truthy k = true /\ Js.orElse v "" = k).
  { intros [k|]; simpl; [|discriminate]. destruct (Js.truthy k) eqn:E; [|discriminate].
    by exists k. }
  unfold isAccepted, apiKeyOf, cseIdOf, POST.
  destruct request as [e|[[|c question]|]]; try discriminate. simpl questionOf.
  intros [[_ Hk]%andb_true_iff Hc]%andb_true_iff.
  destruct (Hset _ Hk) as (apiKey & -> & Hkt & ->).
  destruct (Hset _ Hc) as (cseId & -> & Hct & ->).
  rewrite Hkt, Hct. simpl (true && true). cbv iota.
  unfold bind at 1.
  destruct (googleCustomSearch svc _ apiKey cseId st) as [[response|ids] st1]; [done|].
  destruct (length ids =? 0)%nat; [done|]. unfold bind at 1.
  by destruct (fetchAndSummarize svc _ ids [] st1) as [[response|initial] st2].
Qed.

(** A request that is not accepted is answered without any outside call. *)
Lemma POST_not_accepted request (st : State World) :
  isAccepted cfg request = false ->
  POST svc cfg request st =
  (match request with
   | BodyThrows e => outerCatch e
   | BodyJson _ =>
       if Js.truthy (questionOf request)
       then jsonStatus (ErrorBody "Server configuration error.") 500
       else jsonStatus (ErrorBody "Invalid question provided") 400
   end, st).
Proof.
  unfold isAccepted, apiKeyOf, cseIdOf, POST.
  destruct request as [e|[[|c question]|]]; try done. simpl questionOf.
  simpl (Js.truthy (String c question)). cbv iota. simpl andb.
  destruct (GOOGLE_API_KEY cfg) as [apiKey|]; [|done].
  destruct (GOOGLE_CSE_ID cfg) as [cseId|]; [|done]. simpl Js.orElse.
  destruct (Js.truthy apiKey) eqn:Hk, (Js.truthy cseId) eqn:Hc; simpl; rewrite ?Hk, ?Hc; done.
Qed.

Lemma finalSummaryOf_truthy (out : ChatOutcome) : Js.truthy (finalSummaryOf out) = true.
Proof.
  destruct out as [e|[c|]]; simpl; try done.
  by destruct (Js.truthy (Js.trim c)) eqn:E.
Qed.

(** The answer stage: no relevant summary gives the fixed answer and no
    call; otherwise one synthesis call, whose outcome gives the text. *)
Lemma answerFrom_inv question initial (st : State World) :
  (filterRelevant initial = [] /\
   answerFrom svc question initial st =
   (json (AnswerBody
            "Found some Reddit discussions via Google, but couldn't extract direct answers."
            [] 15), st)) \/
  (filterRelevant initial <> [] /\
   exists out st',
     answerFrom svc question initial st =
     (json (AnswerBody (finalSummaryOf out) (map source_link (filterRelevant initial))
              (calculateConfidence (Z.of_nat (length (filterRelevant initial))))),
      st') /\
     trace st' = trace st ++
       [EvSynthesize (synthesisRequestOf question (filterRelevant initial)) out] /\
     out = fst (chatCreate svc (synthesisRequestOf question (filterRelevant initial))
                  (world st))).
Proof.
  unfold answerFrom.
  destruct (Nat.eqb_spec (length (filterRelevant initial)) 0) as [Hz|Hnz].
  - left. by destruct (filterRelevant initial).
  - right. split; [by intros Hnil; rewrite Hnil in Hnz|]. unfold bind.
    destruct (synthesize_run svc question (filterRelevant initial) st) as (text & -> & ->).
    eexists _, _. split; [by rewrite length_map|]. split; done.
Qed.

End StageFacts.

(** ** Bounds on a run of the candidate loop *)

Section BoundFacts.

Lemma count_app (p : Event -> bool) (a b : list Event) :
  count p (a ++ b) = (count p a + count p b)%nat.
Proof. unfold count. by rewrite List.filter_app, length_app. Qed.

Lemma postLinkOf_reddit (sub : Submission) :
  Js.startsWith "https://reddit.com" (postLinkOf sub) = true.
Proof. apply startsWith_spec. by eexists. Qed.

Lemma Iteration_bounds q id acc evs r :
  Iteration q id acc evs r ->
  (length evs <= 2)%nat /\ count isFetch evs = 1%nat /\
  (count isSummarize evs <= 1)%nat /\
  count isSearch evs = 0%nat /\ count isSynthesize evs = 0%nat /\
  forall acc', r = inr acc' ->
    (length acc' <= S (length acc))%nat /\
    (Forall wellFormedSummary acc -> Forall wellFormedSummary acc').
Proof.
  destruct 1; (do 5 (split; [unfold count; simpl; lia|]));
    intros acc' E; try discriminate; injection E as <-;
    (split; [rewrite ?length_app; simpl; lia|]); try done.
  intros Hacc. apply Forall_app. split; [done|].
  constructor; [|constructor]. split; [done | apply postLinkOf_reddit].
Qed.

Lemma LoopRun_bounds q ids acc evs r :
  LoopRun q ids acc evs r ->
  (length evs <= 2 * length ids)%nat /\
  (count isFetch evs <= length ids)%nat /\
  (count isSummarize evs <= count isFetch evs)%nat /\
  count isSearch evs = 0%nat /\ count isSynthesize evs = 0%nat /\
  fetchedIds evs `prefix_of` ids /\
  forall initial, r = inr initial ->
    (length initial <= length acc + length ids)%nat /\
    (Forall wellFormedSummary acc -> Forall wellFormedSummary initial).
Proof.
  induction 1 as [acc|id rest acc evs response Hit|id rest acc evs acc' evs' r Hit Hrun IH].
  - (do 5 (split; [unfold count; simpl; lia|])). split; [done|].
    intros initial [= <-]. split; [lia | done].
  - destruct (Iteration_bounds _ _ _ _ _ Hit) as (Hl & Hf & Hs & Hsr & Hsy & _).
    (do 5 (split; [simpl length; lia|])). split; [|done].
    rewrite (Iteration_fetched _ _ _ _ _ Hit). by exists rest.
  - destruct (Iteration_bounds _ _ _ _ _ Hit) as (Hl & Hf & Hs & Hsr & Hsy & Hacc).
    destruct IH as (Hl' & Hf' & Hs' & Hsr' & Hsy' & Hpre & Hinit).
    destruct (Hacc acc' eq_refl) as [Hlen Hwf].
    rewrite !count_app, length_app, fetchedIds_app, (Iteration_fetched _ _ _ _ _ Hit).
    simpl length. (do 5 (split; [lia|])). split; [by apply prefix_cons|].
    intros initial E. destruct (Hinit initial E) as [Hlen' Hwf']. split; [lia | auto].
Qed.

Lemma submissionIdsOf_bound (data : GoogleData) :
  NoDup (submissionIdsOf data) /\
  (length (submissionIdsOf data) <= MAX_REDDIT_POSTS_TO_PROCESS)%nat.
Proof.
  unfold submissionIdsOf. destruct (items data) as [[|item results]|].
  - split; [constructor | simpl; lia].
  - destruct (collectIds_spec (item :: results) [] [] collected_nil)
      as (processed & rest & _ & [Hnd _ _] & Hlen & _); [|done].
    unfold MAX_REDDIT_POSTS_TO_PROCESS. simpl. lia.
  - split; [constructor | simpl; lia].
Qed.

End BoundFacts.

(** ** Every accepted request ends in one of the terminal outcomes *)

Section OutcomeFacts.
Context {World : Type}.
Variable svc : Services World.
Variable cfg : Config.

Lemma POST_outcome request (st : State World) :
  isAccepted cfg request = true ->
  exists evs,
    trace (snd (POST svc cfg request st)) = trace st ++ evs /\
    Outcome (questionOf request)
      (searchRequestOf (questionOf request) (apiKeyOf cfg) (cseIdOf cfg))
      evs (fst (POST svc cfg request st)).
Proof.
  intros Hacc. rewrite (POST_accepted svc cfg request st Hacc).
  rewrite googleCustomSearch_inv.
  set (req := searchRequestOf (questionOf request) (apiKeyOf cfg) (cseIdOf cfg)).
  destruct (googleSearch svc req (world st)) as [[e|ok code data] w1]; simpl.
  { eexists. split; [done|]. apply O_search_threw. }
  destruct ok; simpl.
  - destruct (Nat.eqb_spec (length (submissionIdsOf data)) 0) as [Hz|Hnz]; simpl.
    + eexists. split; [done|]. apply O_empty. by destruct (submissionIdsOf data).
    + assert (Hids : submissionIdsOf data <> []) by (by intros Hnil; rewrite Hnil in Hnz).
      destruct (fetchAndSummarize svc _ (submissionIdsOf data) [] _) as [r st2] eqn:Hloop.
      destruct (fetchAndSummarize_run _ _ _ _ _ _ _ Hloop) as (evs & Htr & Hrun).
      simpl in Htr. destruct r as [response|initial].
      * destruct (LoopRun_return _ _ _ _ _ Hrun) as (-> & _). simpl.
        eexists. split; [by rewrite Htr, <- app_assoc|]. by apply O_auth.
      * destruct (answerFrom_inv svc (questionOf request) initial st2)
          as [[Hnone ->]|(Hsome & out & st3 & -> & Htr3 & _)]; simpl.
        -- eexists. split; [by rewrite Htr, <- app_assoc|]. by eapply O_unanswerable.
        -- exists (EvSearch req (SearchReply true code data) :: evs ++
                   [EvSynthesize (synthesisRequestOf (questionOf request)
                                    (filterRelevant initial)) out]).
           split; [by rewrite Htr3, Htr, <- !app_assoc|]. by eapply O_answered.
  - eexists. split; [done|]. apply O_search_refused.
Qed.

End OutcomeFacts.

(** ** What the terminal outcomes imply *)

Section OutcomeProperties.
Variable q : string.
Variable req : SearchRequest.

Lemma filterRelevant_length (l : list Summary) :
  (length (filterRelevant l) <= length l)%nat.
Proof. apply sublist_length, filterRelevant_sublist. Qed.

Lemma Outcome_answer evs response f s c :
  Outcome q req evs response ->
  payload response = AnswerBody f s c ->
  httpCode response = 200 /\
  Js.truthy f = true /\
  (length s <= 5)%nat /\
  Forall (fun l => Js.startsWith "https://reddit.com" l = true) s /\
  ((s = [] /\ (c = 0 \/ c = 15)) \/
   (s <> [] /\ c = Z.min (50 + 10 * Z.of_nat (length s)) 95)).
Proof.
  destruct 1 as [e|code data|code data Hnone|code data evs Hids Hrun
                |code data evs initial Hids Hrun Hnone
                |code data evs initial out Hids Hrun Hsome];
    simpl; intros E; try discriminate; injection E as <- <- <-.
  - repeat split; try done; [simpl; lia | left; split; [done | by left]].
  - repeat split; try done; [simpl; lia | left; split; [done | by right]].
  - destruct (LoopRun_bounds _ _ _ _ _ Hrun) as (_ & _ & _ & _ & _ & _ & Hinit).
    destruct (Hinit initial eq_refl) as [Hlen Hwf].
    destruct (submissionIdsOf_bound data) as [_ Hfive].
    pose proof (filterRelevant_length initial) as Hrel.
    unfold MAX_REDDIT_POSTS_TO_PROCESS in Hfive. simpl in Hlen.
    split; [done|]. split; [apply finalSummaryOf_truthy|].
    split; [rewrite length_map; lia|]. split.
    + apply Forall_forall. intros l (s & -> & Hs%filterRelevant_elem)%list_elem_of_fmap.
      specialize (Hwf (List.Forall_nil _)). rewrite Forall_forall in Hwf.
      by destruct (Hwf s (proj1 Hs)).
    + right. split.
      * destruct (filterRelevant initial); [done | discriminate].
      * unfold calculateConfidence. rewrite length_map. f_equal. lia.
Qed.

Lemma Outcome_codes evs response :
  Outcome q req evs response ->
  (httpCode response = 200 /\ exists f s c, payload response = AnswerBody f s c) \/
  ((httpCode response = 401 \/ httpCode response = 500) /\
   exists msg, payload response = ErrorBody msg).
Proof.
  destruct 1; simpl; try (left; split; [done | by eexists _, _, _]);
    right; (split; [by auto | by eexists]).
Qed.

Lemma Outcome_budget evs response :
  Outcome q req evs response ->
  count isSearch evs = 1%nat /\
  (count isFetch evs <= 5)%nat /\
  (count isSummarize evs <= count isFetch evs)%nat /\
  (count isSynthesize evs <= 1)%nat /\
  (length evs <= 12)%nat /\
  NoDup (fetchedIds evs) /\
  (exists res rest, evs = EvSearch req res :: rest) /\
  (forall ev, ev ∈ evs -> isSynthesize ev = true -> last evs = Some ev).
Proof.
  assert (Hloop : forall data evs r,
            LoopRun q (submissionIdsOf data) [] evs r ->
            (length evs <= 10)%nat /\ (count isFetch evs <= 5)%nat /\
            (count isSummarize evs <= count isFetch evs)%nat /\
            count isSearch evs = 0%nat /\ count isSynthesize evs = 0%nat /\
            NoDup (fetchedIds evs)).
  { intros data evs0 r Hrun.
    destruct (LoopRun_bounds _ _ _ _ _ Hrun) as (Hl & Hf & Hs & Hsr & Hsy & Hpre & _).
    destruct (submissionIdsOf_bound data) as [Hnd Hfive].
    unfold MAX_REDDIT_POSTS_TO_PROCESS in Hfive.
    repeat split; try lia; try done.
    destruct Hpre as [k Hk]. rewrite Hk in Hnd. by apply NoDup_app in Hnd as [? _]. }
  assert (Hnosyn : forall evs0 ev, count isSynthesize evs0 = 0%nat -> ev ∈ evs0 ->
                                   isSynthesize ev = true -> False).
  { intros evs0 ev Hc Hin Hsyn. unfold count in Hc.
    assert (Hin' : ev ∈ List.filter isSynthesize evs0)
      by (apply list_elem_of_In, filter_In; split; [by apply list_elem_of_In | done]).
    destruct (List.filter isSynthesize evs0); [by apply elem_of_nil in Hin' | discriminate]. }
  destruct 1 as [e|code data|code data Hnone|code data evs Hids Hrun
                |code data evs initial Hids Hrun Hnone
                |code data evs initial out Hids Hrun Hsome].
  1-3: (split; [reflexivity|]); (do 3 (split; [unfold count; simpl; lia|]));
       (split; [simpl; lia|]); (split; [constructor|]); (split; [by eexists _, _|]);
       intros ev Hin Hsyn; apply list_elem_of_singleton in Hin as ->; discriminate.
  - destruct (Hloop _ _ _ Hrun) as (Hl & Hf & Hs & Hsr & Hsy & Hnd).
    change (EvSearch req (SearchReply true code data) :: evs)
      with ([EvSearch req (SearchReply true code data)] ++ evs).
    rewrite !count_app, length_app, fetchedIds_app.
    (do 4 (split; [unfold count at 1; simpl; lia|])).
    split; [simpl; lia|]. split; [done|]. split; [by eexists _, _|].
    intros ev [Hev%list_elem_of_singleton|Hin]%elem_of_app Hsyn; [by subst|].
    by destruct (Hnosyn _ _ Hsy Hin Hsyn).
  - destruct (Hloop _ _ _ Hrun) as (Hl & Hf & Hs & Hsr & Hsy & Hnd).
    change (EvSearch req (SearchReply true code data) :: evs)
      with ([EvSearch req (SearchReply true code data)] ++ evs).
    rewrite !count_app, length_app, fetchedIds_app.
    (do 4 (split; [unfold count at 1; simpl; lia|])).
    split; [simpl; lia|]. split; [done|]. split; [by eexists _, _|].
    intros ev [Hev%list_elem_of_singleton|Hin]%elem_of_app Hsyn; [by subst|].
    by destruct (Hnosyn _ _ Hsy Hin Hsyn).
  - destruct (Hloop _ _ _ Hrun) as (Hl & Hf & Hs & Hsr & Hsy & Hnd).
    set (syn := EvSynthesize _ out).
    change (EvSearch req (SearchReply true code data) :: evs ++ [syn])
      with ([EvSearch req (SearchReply true code data)] ++ evs ++ [syn]).
    rewrite !count_app, !length_app, !fetchedIds_app.
    assert (Hfs : fetchedIds [syn] = []) by done. rewrite Hfs, app_nil_r.
    assert (Hc1 : count isSearch [syn] = 0%nat) by done.
    assert (Hc2 : count isFetch [syn] = 0%nat) by done.
    assert (Hc3 : count isSummarize [syn] = 0%nat) by done.
    assert (Hc4 : count isSynthesize [syn] = 1%nat) by done.
    rewrite Hc1, Hc2, Hc3, Hc4.
    (do 4 (split; [unfold count at 1; simpl; lia|])).
    split; [simpl; lia|]. split; [done|]. split; [by eexists _, _|].
    intros ev Hin Hsyn. rewrite app_assoc, last_snoc. f_equal.
    apply elem_of_app in Hin as [Hev%list_elem_of_singleton|Hin]; [by subst|].
    apply elem_of_app in Hin as [Hin|Hev%list_elem_of_singleton]; [|by subst].
    by destruct (Hnosyn _ _ Hsy Hin Hsyn).
Qed.

End OutcomeProperties.

(** ** The route, request by request *)

Lemma outerCatch_error (e : JsError) : exists msg, payload (outerCatch e) = ErrorBody msg.
Proof. unfold outerCatch. destruct (isSyntaxError e); by eexists. Qed.

Lemma POST_not_accepted_error {World} (svc : Services World) (cfg : Config)
    (request : RequestBody) (st : State World) :
  isAccepted cfg request = false ->
  exists msg, payload (fst (POST svc cfg request st)) = ErrorBody msg.
Proof.
  intros Hrej. rewrite (POST_not_accepted svc cfg request st Hrej). simpl.
  destruct request as [e|question]; [apply outerCatch_error|].
  destruct (Js.truthy (questionOf (BodyJson question))); by eexists.
Qed.

(** X3. Unless the body can be read, the question is a non-empty string
    and both Google settings are set, the route answers with an error and
    makes no outside call.  A missing or empty question gives 400 "Invalid
    question provided" whatever the configuration; a good question with a
    missing setting gives 500 "Server configuration error."; a body that
    is not JSON gives 400 "Invalid JSON in request body.". *)
Theorem POST_rejects_without_calls {World} (svc : Services World) (cfg : Config)
    (request : RequestBody) (st : State World) :
  isAccepted cfg request = false ->
  snd (POST svc cfg request st) = st /\
  (exists msg, payload (fst (POST svc cfg request st)) = ErrorBody msg) /\
  (forall question,
     request = BodyJson question -> Js.orElse question "" = "" ->
     fst (POST svc cfg request st) = jsonStatus (ErrorBody "Invalid question provided") 400) /\
  (forall question,
     request = BodyJson (Some question) -> Js.truthy question = true ->
     fst (POST svc cfg request st) = jsonStatus (ErrorBody "Server configuration error.") 500) /\
  (forall e,
     request = BodyThrows e -> isSyntaxError e = true ->
     fst (POST svc cfg request st) = jsonStatus (ErrorBody "Invalid JSON in request body.") 400).
Proof.
  intros Hrej. pose proof (POST_not_accepted_error svc cfg request st Hrej) as Herr.
  rewrite (POST_not_accepted svc cfg request st Hrej) in Herr |- *. simpl in Herr |- *.
  split; [done|]. split; [exact Herr|]. clear Herr. split; [|split].
  - intros question -> Hq. simpl.
    destruct question as [[|c question]|]; simpl in *; done.
  - intros question -> Hq. simpl. by rewrite Hq.
  - intros e -> He. unfold outerCatch. by rewrite He.
Qed.

(** X4. When the search call throws or Google answers with an error
    status, an accepted request ends with status 500 after that single
    call: no thread is fetched.  The message is the thrown error's message
    ("Failed to perform Google search." for a thrown non-error), or
    Google's error message, or "Google Search API failed with status N". *)
Theorem POST_search_failure {World} (svc : Services World) (cfg : Config)
    (request : RequestBody) (st : State World) :
  isAccepted cfg request = true ->
  (forall code data,
     fst (googleSearch svc
            (searchRequestOf (questionOf request) (apiKeyOf cfg) (cseIdOf cfg)) (world st))
     <> SearchReply true code data) ->
  exists msg,
    POST svc cfg request st =
    (jsonStatus (ErrorBody msg) 500,
     {| world := snd (googleSearch svc
                        (searchRequestOf (questionOf request) (apiKeyOf cfg) (cseIdOf cfg))
                        (world st));
        trace := trace st ++
          [EvSearch (searchRequestOf (questionOf request) (apiKeyOf cfg) (cseIdOf cfg))
             (fst (googleSearch svc
                     (searchRequestOf (questionOf request) (apiKeyOf cfg) (cseIdOf cfg))
                     (world st)))] |}) /\
    (forall e,
       fst (googleSearch svc
              (searchRequestOf (questionOf request) (apiKeyOf cfg) (cseIdOf cfg)) (world st))
       = SearchThrows e ->
       msg = if isError e then message e else "Failed to perform Google search.") /\
    (forall code data,
       fst (googleSearch svc
              (searchRequestOf (questionOf request) (apiKeyOf cfg) (cseIdOf cfg)) (world st))
       = SearchReply false code data ->
       msg = Js.orElse (error_message data)
               ("Google Search API failed with status " +:+ Js.numToString code)).
Proof.
  intros Hacc Hfail. rewrite (POST_accepted svc cfg request st Hacc).
  rewrite googleCustomSearch_inv.
  destruct (fst (googleSearch svc _ (world st))) as [e|[] code data].
  - eexists. split; [done|]. split; [by intros e' [= <-] | by intros code data [=]].
  - by destruct (Hfail code data).
  - eexists. split; [done|]. split; [by intros e' [=] | by intros code' data' [= <- <-]].
Qed.

(** X5. Every answer the route returns has status 200, a non-empty final
    summary, at most five sources, each starting with https://reddit.com,
    and a confidence score tied to the sources: 0 or 15 when there are
    none, min(50 + 10 * number of sources, 95) otherwise. *)
Theorem POST_answer_invariant {World} (svc : Services World) (cfg : Config)
    (request : RequestBody) (st : State World)
    (finalSummary : string) (sources : list string) (confidenceScore : Z) :
  payload (fst (POST svc cfg request st)) =
    AnswerBody finalSummary sources confidenceScore ->
  httpCode (fst (POST svc cfg request st)) = 200 /\
  Js.truthy finalSummary = true /\
  (length sources <= 5)%nat /\
  Forall (fun l => Js.startsWith "https://reddit.com" l = true) sources /\
  ((sources = [] /\ (confidenceScore = 0 \/ confidenceScore = 15)) \/
   (sources <> [] /\
    confidenceScore = Z.min (50 + 10 * Z.of_nat (length sources)) 95)).
Proof.
  intros Hans. destruct (isAccepted cfg request) eqn:Hacc.
  - destruct (POST_outcome svc cfg request st Hacc) as (evs & _ & Hout).
    by eapply Outcome_answer.
  - destruct (POST_not_accepted_error svc cfg request st Hacc) as [msg Hmsg].
    congruence.
Qed.

(** X6. Whenever the request body can be read, the route answers either
    with status 200 and an answer, or with status 400, 401 or 500 and an
    error message; no other status and no other pairing occurs. *)
Theorem POST_status_codes {World} (svc : Services World) (cfg : Config)
    (question : option string) (st : State World) :
  (httpCode (fst (POST svc cfg (BodyJson question) st)) = 200 /\
   exists finalSummary sources confidenceScore,
     payload (fst (POST svc cfg (BodyJson question) st)) =
     AnswerBody finalSummary sources confidenceScore) \/
  ((httpCode (fst (POST svc cfg (BodyJson question) st)) = 400 \/
    httpCode (fst (POST svc cfg (BodyJson question) st)) = 401 \/
    httpCode (fst (POST svc cfg (BodyJson question) st)) = 500) /\
   exists msg, payload (fst (POST svc cfg (BodyJson question) st)) = ErrorBody msg).
Proof.
  destruct (isAccepted cfg (BodyJson question)) eqn:Hacc.
  - destruct (POST_outcome svc cfg _ st Hacc) as (evs & _ & Hout).
    destruct (Outcome_codes _ _ _ _ Hout) as [Hok|[Hcode Herr]]; [by left|].
    right. split; [tauto | done].
  - right. rewrite (POST_not_accepted svc cfg _ st Hacc).
    destruct (Js.truthy (questionOf (BodyJson question))); simpl.
    + split; [by right; right | by eexists].
    + split; [by left | by eexists].
Qed.


(** X8. An accepted request whose question holds no unpaired surrogate
    (as every string of this model) starts with the search for the
    question followed by " reddit" (ten results asked) and ends in one of
    six ways: the search threw, the search was refused, no candidate was
    found, a 401 ended the candidate loop, no summary was relevant, or the
    relevant summaries were sent to the model for synthesis; in the last
    case the final summary is the text the route makes of the synthesis
    outcome: a fixed text when the call threw, another when the reply is
    missing or blank, the trimmed reply otherwise. *)
Theorem POST_terminal_outcomes {World} (svc : Services World) (cfg : Config)
    (request : RequestBody) (st : State World) :
  isAccepted cfg request = true ->
  exists res rest,
    trace (snd (POST svc cfg request st)) =
    trace st ++
      EvSearch {| key := apiKeyOf cfg; cx := cseIdOf cfg;
                  q := questionOf request +:+ " reddit"; num := 10 |} res :: rest /\
    Outcome (questionOf request)
      (searchRequestOf (questionOf request) (apiKeyOf cfg) (cseIdOf cfg))
      (EvSearch (searchRequestOf (questionOf request) (apiKeyOf cfg) (cseIdOf cfg)) res :: rest)
      (fst (POST svc cfg request st)).
Proof.
  intros Hacc. destruct (POST_outcome svc cfg request st Hacc) as (evs & Htr & Hout).
  destruct (Outcome_budget _ _ _ _ Hout) as (_ & _ & _ & _ & _ & _ & (res & rest & ->) & _).
  by exists res, rest.
Qed.

(** X10. Irrelevance is stable under added text: a summary that is
    filtered out stays filtered out whatever text is put before it and
    after it. *)
Theorem irrelevance_is_stable (before text after : string) :
  isSummaryRelevant text = false ->
  isSummaryRelevant (before +:+ text +:+ after) = false.
Proof.
  unfold isSummaryRelevant. cbv zeta.
  rewrite !negb_false_iff. unfold some. rewrite !existsb_exists.
  intros (kw & Hkw & Hinc). exists kw. split; [done|].
  apply includes_spec in Hinc as (a & b & Heq). apply includes_spec.
  exists (Js.toLowerCase before +:+ a), (b +:+ Js.toLowerCase after).
  by rewrite !toLowerCase_app, Heq, !app_assoc_s.
Qed.

(** X11. More sources never lower the confidence: the score is monotone
    in the number of sources, lies between 50 and 95 for any count, and
    reaches 95 exactly from five sources on. *)
Theorem calculateConfidence_monotone :
  (forall n m, n <= m -> calculateConfidence n <= calculateConfidence m) /\
  (forall n, 0 <= n -> 50 <= calculateConfidence n <= 95) /\
  (forall n, calculateConfidence n = 95 <-> 5 <= n).
Proof. unfold calculateConfidence. repeat split; intros; lia. Qed.

(** * Properties of the page *)

Section PageFacts.

Lemma Outcome_shape q req evs response :
  Outcome q req evs response ->
  (exists f s c, response = json (AnswerBody f s c) /\ Js.truthy f = true) \/
  (exists msg code, response = jsonStatus (ErrorBody msg) code /\ (code = 401 \/ code = 500)).
Proof.
  destruct 1; try (left; eexists _, _, _; split; [reflexivity|];
                   first [done | apply finalSummaryOf_truthy]);
    right; eexists _, _; (split; [reflexivity | auto]).
Qed.

Lemma POST_readable_shape {World} (svc : Services World) (cfg : Config)
    (question : option string) (st : State World) :
  (exists f s c,
     fst (POST svc cfg (BodyJson question) st) = json (AnswerBody f s c) /\
     Js.truthy f = true) \/
  (exists msg code,
     fst (POST svc cfg (BodyJson question) st) = jsonStatus (ErrorBody msg) code /\
     (code = 400 \/ code = 401 \/ code = 500)).
Proof.
  destruct (isAccepted cfg (BodyJson question)) eqn:Hacc.
  - destruct (POST_outcome svc cfg _ st Hacc) as (evs & _ & Hout).
    destruct (Outcome_shape _ _ _ _ Hout) as [Hans|(msg & code & Hr & Hc)]; [by left|].
    right. exists msg, code. split; [done | tauto].
  - right. rewrite (POST_not_accepted svc cfg _ st Hacc).
    destruct (Js.truthy (questionOf (BodyJson question))); eexists _, _;
      (split; [reflexivity | auto]).
Qed.

Lemma httpErrorMessage_truthy (response : Page.HttpResponse) (data : Page.ResultData) :
  Js.truthy (Page.httpErrorMessage response data) = true.
Proof.
  unfold Page.httpErrorMessage.
  assert (Hfb : Js.truthy (if Js.truthy (Page.statusText response)
                           then Page.statusText response
                           else "HTTP error! status: "
                                +:+ Js.numToString (Page.status response)) = true).
  { by destruct (Js.truthy (Page.statusText response)) eqn:E. }
  destruct (Page.error data) as [e|]; simpl; [|done].
  by destruct (Js.truthy e) eqn:E.
Qed.

End PageFacts.

(** X12. Whatever happens to the exchange, submitting first clears the
    previous result and shows only the spinner with a disabled button, and
    when the handler is done the page is no longer loading, the question
    is unchanged and some result is stored. *)
Theorem handleSubmit_settles (fetched : Page.Fetched) (ui : Page.Ui) :
  Page.render (Page.run (take 2 (Page.handleSubmit fetched)) ui) =
    [Page.QuestionInput (Page.question ui);
     Page.SubmitButton "Getting answers..." true;
     Page.Loading] /\
  Page.isLoading (Page.run (Page.handleSubmit fetched) ui) = false /\
  Page.question (Page.run (Page.handleSubmit fetched) ui) = Page.question ui /\
  is_Some (Page.results (Page.run (Page.handleSubmit fetched) ui)) /\
  Page.Loading ∉ Page.render (Page.run (Page.handleSubmit fetched) ui).
Proof.
  split; [done|].
  assert (Hnl : forall r, Page.Loading ∉ Page.resultBlocks r).
  { intros r. unfold Page.resultBlocks.
    destruct (Page.nonEmpty (Page.error r)); [by intros [=]%list_elem_of_singleton|].
    destruct (Page.nonEmpty (Page.finalSummary r)); [|by intros [=]%list_elem_of_singleton].
    destruct (Page.confidenceScore r), (Page.sources r) as [[|l ls]|]; simpl;
      intros Hin; repeat (apply elem_of_cons in Hin as [Hin|Hin]; [discriminate|]);
      by apply elem_of_nil in Hin. }
  assert (Hshape : exists r, Page.run (Page.handleSubmit fetched) ui =
            {| Page.question := Page.question ui; Page.results := Some r;
               Page.isLoading := false |}).
  { destruct fetched as [e|[ok code text [e|data]]]; simpl; try by eexists.
    destruct ok; simpl; by eexists. }
  destruct Hshape as [r ->]. simpl. repeat split; [by eexists|].
  unfold Page.render. simpl. intros Hin.
  repeat (apply elem_of_cons in Hin as [Hin|Hin]; [discriminate|]). by apply (Hnl r).
Qed.

(** X13. When the exchange itself fails (the fetch rejects or the reply
    is not JSON) the page shows the thrown error's message, or "Failed to
    get summary. Check console for details." for a thrown non-error; if
    the thrown error has an empty message the page shows the "no relevant
    information" text instead of an error. *)
Theorem page_exchange_failure (e : JsError) (ui : Page.Ui)
    (ok : bool) (code : Z) (text : string) :
  let shown :=
    [Page.QuestionInput (Page.question ui); Page.SubmitButton "Submit" false] ++
    (if Js.truthy (Page.catchMessage e) then [Page.ErrorText (Page.catchMessage e)]
     else [Page.NoInformation]) in
  Page.render (Page.run (Page.handleSubmit (Page.FetchRejects e)) ui) = shown /\
  Page.render
    (Page.run
       (Page.handleSubmit
          (Page.FetchResolves
             {| Page.ok := ok; Page.status := code; Page.statusText := text;
                Page.body := Page.JsonThrows e |})) ui) = shown /\
  (Js.truthy (Page.catchMessage e) = false <-> isError e = true /\ message e = "").
Proof.
  cbv zeta. split; [|split].
  - unfold Page.render. simpl. unfold Page.resultBlocks. simpl.
    by destruct (Js.truthy (Page.catchMessage e)).
  - unfold Page.render. simpl. unfold Page.resultBlocks. simpl.
    by destruct (Js.truthy (Page.catchMessage e)).
  - unfold Page.catchMessage. destruct (isError e); [|by split; [|intros []]].
    destruct (message e); simpl; split; try done; by intros [].
Qed.

(** X14. When the server answers with a status outside 200-299 and a
    JSON body, the page shows exactly one error: the body's error field if
    it is not empty, otherwise the status text if it is not empty,
    otherwise "HTTP error! status: N"; the message is never empty. *)
Theorem page_http_error (response : Page.HttpResponse) (data : Page.ResultData)
    (ui : Page.Ui) :
  Page.body response = Page.JsonValue data ->
  Page.ok response = false ->
  Page.render (Page.run (Page.handleSubmit (Page.FetchResolves response)) ui) =
    [Page.QuestionInput (Page.question ui); Page.SubmitButton "Submit" false;
     Page.ErrorText (Page.httpErrorMessage response data)] /\
  Js.truthy (Page.httpErrorMessage response data) = true /\
  Page.httpErrorMessage response data =
    match Page.nonEmpty (Page.error data), Page.nonEmpty (Some (Page.statusText response)) with
    | Some msg, _ => msg
    | None, Some text => text
    | None, None => "HTTP error! status: " +:+ Js.numToString (Page.status response)
    end.
Proof.
  intros Hbody Hok. pose proof (httpErrorMessage_truthy response data) as Ht.
  split; [|split; [done|]].
  - unfold Page.handleSubmit. rewrite Hbody, Hok. unfold Page.render. simpl.
    unfold Page.resultBlocks. simpl. by rewrite Ht.
  - unfold Page.httpErrorMessage, Page.nonEmpty.
    destruct (Page.error data) as [e|]; simpl.
    + destruct (Js.truthy e); [done|]. by destruct (Js.truthy (Page.statusText response)).
    + by destruct (Js.truthy (Page.statusText response)).
Qed.

(** X15. End to end: after the page posts its question to the route and
    the reply arrives, the page shows the route's answer (its confidence,
    its text and, if there are any, its sources in the same order) or the
    route's error message (the status text or "HTTP error! status: N" when
    that message is empty); it never shows the "no relevant information"
    text for a reply of the route. *)
Theorem page_shows_route_response {World} (svc : Services World) (cfg : Config)
    (ui : Page.Ui) (st : State World) (statusText : string) :
  Page.render
    (Page.run
       (Page.handleSubmit (delivered statusText (fst (POST svc cfg (Page.requestOf ui) st))))
       ui) =
  [Page.QuestionInput (Page.question ui); Page.SubmitButton "Submit" false] ++
  match payload (fst (POST svc cfg (Page.requestOf ui) st)) with
  | AnswerBody f s c =>
      [Page.Confidence c; Page.Markdown f] ++
      match s with [] => [] | _ => [Page.Sources s] end
  | ErrorBody e =>
      [Page.ErrorText
         (if Js.truthy e then e
          else if Js.truthy statusText then statusText
          else "HTTP error! status: "
               +:+ Js.numToString (httpCode (fst (POST svc cfg (Page.requestOf ui) st))))]
  end.
Proof.
  unfold Page.requestOf.
  destruct (POST_readable_shape svc cfg (Some (Page.question ui)) st)
    as [(f & s & c & -> & Hf)|(msg & code & -> & Hcode)].
  - unfold Page.render. simpl. unfold Page.resultBlocks. simpl. rewrite Hf.
    by destruct s.
  - assert (Hok : (200 <=? code) && (code <=? 299) = false)
      by (destruct Hcode as [->|[->| ->]]; reflexivity).
    unfold delivered, Page.handleSubmit. simpl. rewrite Hok. simpl.
    unfold Page.render. simpl. unfold Page.resultBlocks. simpl.
    pose proof (httpErrorMessage_truthy
                  {| Page.ok := false; Page.status := code;
                     Page.statusText := statusText;
                     Page.body := Page.JsonValue (Page.errorOnly msg) |}
                  (Page.errorOnly msg)) as Ht.
    unfold Page.httpErrorMessage in *. simpl in *. by rewrite Ht.
Qed.

(** * Properties of the prompts *)

Section PromptFacts.

Lemma contains_refl (s : string) : contains s s.
Proof. exists "", "". by rewrite app_nil_l_s, app_nil_r_s. Qed.

Lemma contains_head (s rest kw : string) : contains s kw -> contains (s +:+ rest) kw.
Proof. intros (a & b & ->). exists a, (b +:+ rest). by rewrite !app_assoc_s. Qed.

Lemma contains_tail (s rest kw : string) : contains rest kw -> contains (s +:+ rest) kw.
Proof. intros (a & b & ->). exists (s +:+ a), b. by rewrite !app_assoc_s. Qed.

Lemma contains_join (sep x : string) (l : list string) :
  x ∈ l -> contains (Js.join sep l) x.
Proof.
  induction l as [|y l IH]; [by intros ?%elem_of_nil|].
  intros [->|Hin]%elem_of_cons.
  - destruct l; [apply contains_refl | apply contains_head, contains_refl].
  - destruct l as [|z l]; [by apply elem_of_nil in Hin|].
    change (Js.join sep (y :: z :: l)) with (y +:+ sep +:+ Js.join sep (z :: l)).
    by apply contains_tail, contains_tail, IH.
Qed.

End PromptFacts.

(** Finds a piece of a right-nested concatenation. *)
Ltac find_piece :=
  repeat first [ apply contains_refl
               | apply contains_head, contains_refl
               | apply contains_tail ].

(** X16. The prompts carry their inputs.  The summarising prompt contains
    the question, the thread's title, its body (or N/A when it has none)
    and every selected comment as "<position>. <text>"; the synthesis
    prompt contains the question and, for every relevant summary, its
    position, its source link and its text. *)
Theorem prompts_carry_inputs :
  (forall question submission topComments,
     contains (content (summaryRequestOf question submission topComments)) question /\
     contains (content (summaryRequestOf question submission topComments))
       ("Post Title: " +:+ title submission) /\
     contains (content (summaryRequestOf question submission topComments))
       ("Post Body: " +:+ Js.orElse (selftext submission) "N/A") /\
     forall i comment,
       topComments !! i = Some comment ->
       contains (content (summaryRequestOf question submission topComments))
         (Js.numToString (Z.of_nat i + 1) +:+ ". " +:+ body comment)) /\
  (forall question relevantSummaries,
     contains (content (synthesisRequestOf question relevantSummaries)) question /\
     forall i s,
       relevantSummaries !! i = Some s ->
       contains (content (synthesisRequestOf question relevantSummaries))
         ("Relevant Summary From Source " +:+ Js.numToString (Z.of_nat i + 1)
          +:+ " (" +:+ source_link s +:+ "):" +:+ Js.nl +:+ summary s)).
Proof.
  split.
  - intros question submission topComments. simpl content. unfold summaryPromptOf.
    split; [find_piece|]. split; [|split].
    + do 7 apply contains_tail. rewrite <- app_assoc_s. apply contains_head, contains_refl.
    + do 10 apply contains_tail. rewrite <- app_assoc_s. apply contains_head, contains_refl.
    + intros i comment Hi. do 16 apply contains_tail. apply contains_head.
      unfold commentsTextOf. apply contains_join.
      apply list_elem_of_lookup. exists i. by rewrite list_lookup_imap, Hi.
  - intros question relevantSummaries. simpl content. unfold synthesisPromptOf.
    split; [find_piece|].
    intros i s Hi. do 8 apply contains_tail. apply contains_head.
    unfold combinedContentOf. apply contains_join.
    apply list_elem_of_lookup. exists i. by rewrite list_lookup_imap, Hi.
Qed.

(** * The further properties on scripted runs *)

(** A good question without the API key: 500 and no call. *)
Lemma POST_rejects_without_calls_witness :
  fst (POST Demo.svcOk Demo.noKey Demo.request Demo.st0) =
    jsonStatus (ErrorBody "Server configuration error.") 500 /\
  snd (POST Demo.svcOk Demo.noKey Demo.request Demo.st0) = Demo.st0.
Proof.
  assert (Hrej : isAccepted Demo.noKey Demo.request = false) by reflexivity.
  destruct (POST_rejects_without_calls Demo.svcOk Demo.noKey Demo.request Demo.st0 Hrej)
    as (Hst & _ & _ & Hcfg & _).
  split; [|exact Hst]. apply (Hcfg Demo.question); reflexivity.
Defined.

(** Google refuses the search with its own message. *)
Lemma POST_search_failure_witness :
  fst (POST Demo.svcSearchRefused Demo.cfg Demo.request Demo.st0) =
  jsonStatus (ErrorBody "Daily Limit Exceeded") 500.
Proof.
  assert (Hacc : isAccepted Demo.cfg Demo.request = true) by reflexivity.
  destruct (POST_search_failure Demo.svcSearchRefused Demo.cfg Demo.request Demo.st0 Hacc)
    as (msg & Hpost & _ & Hmsg).
  - intros code data. vm_compute. discriminate.
  - rewrite Hpost. simpl.
    rewrite (Hmsg 403 {| error_message := Some "Daily Limit Exceeded"; items := None |});
      [reflexivity | vm_compute; reflexivity].
Defined.

(** The answer of the run with three relevant threads. *)
Lemma POST_answer_invariant_witness :
  httpCode (fst (POST Demo.svcOk Demo.cfg Demo.request Demo.st0)) = 200.
Proof.
  apply (POST_answer_invariant Demo.svcOk Demo.cfg Demo.request Demo.st0
           "## Start with the book"
           [ "https://reddit.com/r/x/comments/abc123/";
             "https://reddit.com/r/x/comments/def4567/";
             "https://reddit.com/r/x/comments/ghi89012/" ]
           80).
  vm_compute. reflexivity.
Defined.

(** The accepted scripted request starts with its search. *)
Lemma POST_terminal_outcomes_witness :
  exists res rest,
    trace (snd (POST Demo.svcOk Demo.cfg Demo.request Demo.st0)) =
    EvSearch {| key := "key"; cx := "cse"; q := "how to learn rust reddit"; num := 10 |} res
      :: rest.
Proof.
  assert (Hacc : isAccepted Demo.cfg Demo.request = true) by reflexivity.
  destruct (POST_terminal_outcomes Demo.svcOk Demo.cfg Demo.request Demo.st0 Hacc)
    as (res & rest & Htr & _).
  exists res, rest. exact Htr.
Defined.

(** A summary that says the thread is off topic, with text around it. *)
Lemma irrelevance_is_stable_witness :
  isSummaryRelevant
    ("Summary: " +:+ "The thread is NOT about learning Rust" +:+ ", it is about crabs.")
  = false.
Proof. apply irrelevance_is_stable. vm_compute. reflexivity. Defined.

(** A 500 reply with an empty error field: the status text is shown. *)
Lemma page_http_error_witness :
  Page.render
    (Page.run
       (Page.handleSubmit
          (Page.FetchResolves
             {| Page.ok := false; Page.status := 500;
                Page.statusText := "Internal Server Error";
                Page.body := Page.JsonValue (Page.errorOnly "") |}))
       Page.initial) =
  [Page.QuestionInput ""; Page.SubmitButton "Submit" false;
   Page.ErrorText "Internal Server Error"].
Proof.
  exact (proj1 (page_http_error
                  {| Page.ok := false; Page.status := 500;
                     Page.statusText := "Internal Server Error";
                     Page.body := Page.JsonValue (Page.errorOnly "") |}
                  (Page.errorOnly "") Page.initial eq_refl eq_refl)).
Defined.
